(** * Metadata Explorer: storage-prefix resolution, record extraction,
      summarization adapter and scratch-directory lifecycle

    A shallow embedding of [app/OpenTableFormat_MetadataViewet.py] (and, where
    it differs, of the older top-level [OpenTableFormat_MetadataViewet.py]),
    followed by the properties proved about it.

    Python [str] values are sequences of Unicode code points: a character is a
    code point in [N] and a string is a list of them.  Calls into libraries
    the script does not define (the JSON parser, the SQL session, the Parquet
    footer accessors, the Avro reader) are parameters of the sections that use
    them. *)

From Stdlib Require Import String Ascii.
From Stdlib Require Import List NArith ZArith Lia Bool.
From stdpp Require Import gmap.
Import ListNotations.

Abbreviation char := N (only parsing).
Abbreviation str := (list N) (only parsing).

(** An ASCII literal as a Python string. *)
Definition lit (s : string) : str := map N_of_ascii (list_ascii_of_string s).
Arguments lit s%_string.

(** ** Python built-ins used by the script *)
Module Py.

Definition char_in (c : char) (cs : str) : bool := existsb (N.eqb c) cs.

(** [a == b] on strings. *)
Fixpoint str_eqb (a b : str) : bool :=
  match a, b with
  | [], [] => true
  | x :: a', y :: b' => N.eqb x y && str_eqb a' b'
  | _, _ => false
  end.

(** [s.startswith(p)]. *)
Fixpoint startswith (s p : str) {struct p} : bool :=
  match p with
  | [] => true
  | x :: p' =>
      match s with
      | [] => false
      | y :: s' => N.eqb x y && startswith s' p'
      end
  end.

(** [s.endswith(p)]. *)
Definition endswith (s p : str) : bool := startswith (rev s) (rev p).

(** [s[n:]] for [n >= 0]. *)
Definition slice_from (s : str) (n : nat) : str := skipn n s.

(** [s[:n]]; a negative [n] counts from the end. *)
Definition slice_to (s : str) (n : Z) : str :=
  if (n <? 0)%Z then firstn (length s - Z.to_nat (- n)) s
  else firstn (Z.to_nat n) s.

(** [s.lstrip(...)]: drop leading characters satisfying [p]. *)
Fixpoint lstrip_by (p : char -> bool) (s : str) : str :=
  match s with
  | [] => []
  | c :: r => if p c then lstrip_by p r else s
  end.

(** [s.rstrip(...)]: drop trailing characters satisfying [p]. *)
Fixpoint rstrip_by (p : char -> bool) (s : str) : str :=
  match s with
  | [] => []
  | c :: r =>
      match rstrip_by p r with
      | [] => if p c then [] else [c]
      | r' => c :: r'
      end
  end.

Definition lstrip (chars s : str) : str := lstrip_by (fun c => char_in c chars) s.
Definition rstrip (chars s : str) : str := rstrip_by (fun c => char_in c chars) s.
Definition strip (chars s : str) : str := lstrip chars (rstrip chars s).

(** [str.isspace] on one character: the code points Python (and the [\s]
    class of [re] on [str] patterns) treats as whitespace. *)
Definition isspace (c : char) : bool :=
  ((9 <=? c) && (c <=? 13) || (28 <=? c) && (c <=? 32)
   || (c =? 133) || (c =? 160) || (c =? 5760)
   || (8192 <=? c) && (c <=? 8202)
   || (c =? 8232) || (c =? 8233) || (c =? 8239) || (c =? 8287)
   || (c =? 12288))%N.

(** [s.strip()] with no argument. *)
Definition strip_ws (s : str) : str := lstrip_by isspace (rstrip_by isspace s).

(** [sep.join(parts)]. *)
Fixpoint join (sep : str) (parts : list str) : str :=
  match parts with
  | [] => []
  | [p] => p
  | p :: rest => p ++ sep ++ join sep rest
  end.

(** [sub in s]. *)
Fixpoint contains (sub s : str) : bool :=
  startswith s sub ||
  match s with
  | [] => false
  | _ :: r => contains sub r
  end.

(** [s.split(sep)] for a non-empty [sep] (every call site passes a literal;
    Python raises [ValueError] on an empty one).  The scan goes left to right;
    [skip] counts the characters of a separator still to be consumed and [cur]
    is the current piece, reversed. *)
Fixpoint split_go (sep : str) (skip : nat) (cur s : str) : list str :=
  match s with
  | [] => [rev cur]
  | c :: r =>
      match skip with
      | S k => split_go sep k cur r
      | O =>
          if startswith s sep
          then rev cur :: split_go sep (length sep - 1) [] r
          else split_go sep 0 (c :: cur) r
      end
  end.

Definition split (sep s : str) : list str := split_go sep 0 [] s.

(** [s.split(sep, maxsplit)]: at most [budget] cuts, the rest left whole. *)
Fixpoint splitn_go (sep : str) (budget skip : nat) (cur s : str) : list str :=
  match s with
  | [] => [rev cur]
  | c :: r =>
      match skip with
      | S k => splitn_go sep budget k cur r
      | O =>
          match budget with
          | O => [rev cur ++ s]
          | S b =>
              if startswith s sep
              then rev cur :: splitn_go sep b (length sep - 1) [] r
              else splitn_go sep budget 0 (c :: cur) r
          end
      end
  end.

Definition splitn (sep : str) (maxsplit : nat) (s : str) : list str :=
  splitn_go sep maxsplit 0 [] s.

(** [xs[-1]] on a list of strings that is known to be non-empty. *)
Definition last_item (xs : list str) : str := List.last xs [].

(** [xs[0]] on a list of strings that is known to be non-empty. *)
Definition first_item (xs : list str) : str := hd [] xs.

(** The text before the first occurrence of [sep], all of [s] if there is
    none: what [s.split(sep)[0]] is shown to be. *)
Fixpoint before_first (sep s : str) : str :=
  match s with
  | [] => []
  | c :: r => if startswith s sep then [] else c :: before_first sep r
  end.

End Py.

(** ** Storage prefix resolver (the "Resolve Stage" block) *)
Module Resolver.

(** One row of [STAGE_PATHS]. *)
Record stage_row := {
  STAGE_NAME : str;
  DATABASE_NAME : str;
  SCHEMA_NAME : str;
  STAGE_URL : str
}.

(** [x.rstrip("/*").rstrip("/")]. *)
Definition clean_path (x : str) : str :=
  Py.rstrip (lit "/") (Py.rstrip (lit "/*") x).

(** The test of the loop over [stage_df]. *)
Definition stage_matches (ev_s3_path stage_url_candidate : str) : bool :=
  Py.str_eqb ev_s3_path stage_url_candidate
  || Py.startswith ev_s3_path (stage_url_candidate ++ lit "/").

(** The loop over [stage_df.iterrows()]: the first row whose cleaned URL
    passes the test, where the loop breaks. *)
Fixpoint find_stage (stage_df : list stage_row) (ev_s3_path : str)
  : option stage_row :=
  match stage_df with
  | [] => None
  | row :: rest =>
      let stage_url_candidate := clean_path (STAGE_URL row) in
      if stage_matches ev_s3_path stage_url_candidate then Some row
      else find_stage rest ev_s3_path
  end.

(** [f"{row['DATABASE_NAME']}.{row['SCHEMA_NAME']}.{row['STAGE_NAME']}"]. *)
Definition qualified_name (row : stage_row) : str :=
  DATABASE_NAME row ++ lit "." ++ SCHEMA_NAME row ++ lit "." ++ STAGE_NAME row.

(** [(resolved_stage, stage_url)] after the loop; [None] is the
    "Could not resolve stage" stop. *)
Definition resolve_stage (stage_df : list stage_row) (ev_s3_path : str)
  : option (str * str) :=
  match find_stage stage_df ev_s3_path with
  | Some row => Some (qualified_name row, clean_path (STAGE_URL row))
  | None => None
  end.

(** "Compute relative prefix". *)
Definition relative_from_ev (ev_s3_path stage_url : str) : str :=
  if Py.str_eqb ev_s3_path stage_url then []
  else if Py.startswith ev_s3_path (stage_url ++ lit "/")
  then Py.slice_from ev_s3_path (length stage_url + 1)
  else [].

(** Python truthiness of a string. *)
Definition truthy (s : str) : bool :=
  match s with [] => false | _ => true end.

(** "Combine relative_from_ev and base_location"; [base_location] is [None]
    when the DDL has no [BASE_LOCATION]. *)
Definition relative_prefix (relative_from_ev : str) (base_location : option str)
  : str :=
  let parts := [] in
  let parts :=
    if truthy relative_from_ev
    then parts ++ [Py.rstrip (lit "/") relative_from_ev] else parts in
  let parts :=
    match base_location with
    | Some b =>
        if truthy b
        then parts ++ [Py.rstrip (lit "/") (Py.lstrip (lit "/") b)] else parts
    | None => parts
    end in
  Py.strip (lit "/") (Py.join (lit "/") (List.filter truthy parts)).

(** [re.escape] (Python 3.7 and later): a backslash before each of the
    characters [()[]{}?*+-|^$\.&~#], space, tab, newline, carriage return,
    vertical tab and form feed. *)
Definition re_special : str :=
  lit "()[]{}?*+-|^$\.&~# " ++ [9; 10; 13; 11; 12]%N.

Definition re_escape (s : str) : str :=
  flat_map (fun c => if Py.char_in c re_special then [92%N; c] else [c]) s.

(** "Build LS PATTERN".  The script binds [escaped] and then formats the
    pattern from [relative_prefix]. *)
Definition ls_pattern (relative_prefix : str) : str :=
  if truthy relative_prefix then
    let escaped := re_escape relative_prefix in
    lit "^" ++ relative_prefix ++ lit ".*"
  else lit ".*".

(** The pattern the bound [escaped] value would give. *)
Definition escaped_pattern (relative_prefix : str) : str :=
  lit "^" ++ re_escape relative_prefix ++ lit ".*".

(** The older top-level script: the stage is the one the user picked, there
    is no loop over stages, and a path that does not continue the stage URL
    is cut after its third [/]. *)
Module Legacy.

Definition relative_from_stage (ev_s3_path stage_url : str) : str :=
  let stage_url_slash :=
    if Py.endswith stage_url (lit "/") then stage_url else stage_url ++ lit "/" in
  if Py.startswith ev_s3_path stage_url_slash
  then Py.slice_from ev_s3_path (length stage_url_slash)
  else Py.last_item (Py.splitn (lit "/") 3 ev_s3_path).

Definition relative_prefix (from_stage : str) (base_location : option str)
  : str :=
  match base_location with
  | Some b =>
      if truthy b
      then Py.join (lit "/")
             [Py.rstrip (lit "/") from_stage; Py.lstrip (lit "/") b]
      else from_stage
  | None => from_stage
  end.

Definition ls_pattern (relative_prefix : str) : str :=
  relative_prefix ++ lit ".*".

End Legacy.

End Resolver.

(** Two stages whose URLs share a prefix, and the mount table of the
    end-to-end example. *)
Module ResolverExample.
Import Resolver.

Definition mount_1 : stage_row :=
  {| STAGE_NAME := lit "S1"; DATABASE_NAME := lit "DB"; SCHEMA_NAME := lit "PUBLIC";
     STAGE_URL := lit "s3://bucket/mount-1" |}.

Definition mount_10 : stage_row :=
  {| STAGE_NAME := lit "S10"; DATABASE_NAME := lit "DB"; SCHEMA_NAME := lit "PUBLIC";
     STAGE_URL := lit "s3://bucket/mount-10/" |}.

Definition m1 : stage_row :=
  {| STAGE_NAME := lit "M1"; DATABASE_NAME := lit "DB"; SCHEMA_NAME := lit "PUBLIC";
     STAGE_URL := lit "store://bkt" |}.

Definition bucket_root : stage_row :=
  {| STAGE_NAME := lit "ROOT"; DATABASE_NAME := lit "DB"; SCHEMA_NAME := lit "PUBLIC";
     STAGE_URL := lit "s3://bucket/*" |}.

End ResolverExample.

(** ** Object lister: filter and labels (the "List files" and
       "File Selection" blocks) *)
Module Lister.

(** One row of the [LS] result, [LAST_MODIFIED] already as text. *)
Record object_entry := {
  NAME : str;
  LAST_MODIFIED : str
}.

(** [NAME.str.endswith(('.crc', '.bin'))]. *)
Definition is_side_file (name : str) : bool :=
  Py.endswith name (lit ".crc") || Py.endswith name (lit ".bin").

(** [files_df[~files_df['NAME'].str.endswith(('.crc', '.bin'))]]. *)
Definition keep_data_files (files_df : list object_entry) : list object_entry :=
  List.filter (fun e => negb (is_side_file (NAME e))) files_df.

(** [files_df['NAME'] + " | " + files_df['LAST_MODIFIED'].astype(str)]. *)
Definition make_label (e : object_entry) : str :=
  NAME e ++ lit " | " ++ LAST_MODIFIED e.

(** [selected_file.split(" | ")[0]]. *)
Definition selected_name (label : str) : str :=
  Py.first_item (Py.split (lit " | ") label).

End Lister.

Module ListerExample.
Import Lister.

Definition plain_object : object_entry :=
  {| NAME := lit "db/t1/part-0.parquet"; LAST_MODIFIED := lit "2024-05-01 10:00:00" |}.

Definition checksum_object : object_entry :=
  {| NAME := lit "db/t1/part-0.parquet.crc"; LAST_MODIFIED := lit "2024-05-01 10:00:00" |}.

Definition trailing_bar_object : object_entry :=
  {| NAME := lit "db/t1/x |"; LAST_MODIFIED := lit "2024-05-01 10:00:00" |}.

End ListerExample.

(** ** The pattern language of [LS ... PATTERN]

    Only a fragment is read, enough for what [ls_pattern] builds from a
    prefix without brackets, braces, bars or other quantifiers: an optional
    leading [^], then ordinary characters, a backslash and a punctuation
    character [c] for a literal [c], [.] for any character but a newline,
    each optionally followed by a star.  Anything else is outside the
    fragment. *)
Module Regex.

Inductive atom :=
  | Lit (c : char)
  | AnyChar.

(** An atom and whether a star follows it. *)
Definition item := (atom * bool)%type.

Definition is_meta (c : char) : bool := Py.char_in c (lit "()[]{}?+|^$*").

(** A backslash before a letter or a digit is a class or a reference, and
    is not read. *)
Definition escapable (c : char) : bool :=
  ((c <? 128) && negb ((48 <=? c) && (c <=? 57) || (65 <=? c) && (c <=? 90)
                       || (97 <=? c) && (c <=? 122)))%N.

Definition starred (r : str) : bool * str :=
  match r with
  | c :: r' => if (c =? 42)%N then (true, r') else (false, r)
  | [] => (false, r)
  end.

(** [fuel] bounds the number of items; the length of the pattern is enough. *)
Fixpoint parse_items (fuel : nat) (p : str) : option (list item) :=
  match fuel with
  | O => match p with [] => Some [] | _ => None end
  | S fuel' =>
      match p with
      | [] => Some []
      | c :: r =>
          if (c =? 92)%N then
            match r with
            | e :: r' =>
                if escapable e then
                  let '(st, rest) := starred r' in
                  option_map (cons (Lit e, st)) (parse_items fuel' rest)
                else None
            | [] => None
            end
          else if (c =? 46)%N then
            let '(st, rest) := starred r in
            option_map (cons (AnyChar, st)) (parse_items fuel' rest)
          else if is_meta c then None
          else
            let '(st, rest) := starred r in
            option_map (cons (Lit c, st)) (parse_items fuel' rest)
      end
  end.

Definition parse (p : str) : option (list item) :=
  match p with
  | c :: r => if (c =? 94)%N then parse_items (length r) r
              else parse_items (length p) p
  | [] => Some []
  end.

Definition atom_ok (a : atom) (c : char) : bool :=
  match a with
  | Lit x => (x =? c)%N
  | AnyChar => negb (c =? 10)%N
  end.

(** Does some prefix of [key] match the items?  (Every pattern read here is
    matched from the start of the key.) *)
Fixpoint match_items (items : list item) (key : str) : bool :=
  match items with
  | [] => true
  | (a, false) :: rest =>
      match key with
      | c :: key' => atom_ok a c && match_items rest key'
      | [] => false
      end
  | (a, true) :: rest =>
      (fix star (k : str) : bool :=
         match_items rest k ||
         match k with
         | c :: k' => atom_ok a c && star k'
         | [] => false
         end) key
  end.

(** [None]: the pattern is outside the fragment. *)
Definition accepts (pattern key : str) : option bool :=
  option_map (fun items => match_items items key) (parse pattern).

(** A character that stands for itself in a pattern. *)
Definition plain (c : char) : bool :=
  negb ((c =? 92) || (c =? 46) || is_meta c)%N.

End Regex.

(** ** Exceptions

    A call either returns or raises; only subclasses of [Exception] are
    modelled. *)
Module Exc.

Inductive exn :=
  | NotImplementedError (msg : str)
  | ArrowNotImplementedError (msg : str)
  | IndexError (msg : str)
  | FileNotFoundError (msg : str)
  | OtherError (kind msg : str).

(** [str(e)]. *)
Definition exn_message (e : exn) : str :=
  match e with
  | NotImplementedError m | ArrowNotImplementedError m | IndexError m
  | FileNotFoundError m | OtherError _ m => m
  end.

Inductive outcome (A : Type) :=
  | Ret (a : A)
  | Raise (e : exn).
Arguments Ret {A} a.
Arguments Raise {A} e.

Definition bind {A B : Type} (m : outcome A) (k : A -> outcome B) : outcome B :=
  match m with
  | Ret a => k a
  | Raise e => Raise e
  end.

(** [try: body  except Exception as e: handler(e)]. *)
Definition try_except {A : Type} (body : outcome A) (handler : exn -> outcome A)
  : outcome A :=
  match body with
  | Ret a => Ret a
  | Raise e => handler e
  end.

(** Sequential evaluation of a list of calls, stopping at the first raise. *)
Fixpoint for_each {A B : Type} (f : A -> outcome B) (xs : list A)
  : outcome (list B) :=
  match xs with
  | [] => Ret []
  | x :: rest =>
      bind (f x) (fun y => bind (for_each f rest) (fun ys => Ret (y :: ys)))
  end.

End Exc.

Declare Scope exc_scope.
Delimit Scope exc_scope with exc.
Notation "x <- m ;; k" := (Exc.bind m (fun x => k))
  (at level 100, m at next level, right associativity) : exc_scope.

(** ** Loose record extractor (the [json]/[ndjson] branch of "Read File") *)
Module Json.

(** A decoded JSON value; a number keeps its text. *)
#[warnings="-register-all"]
Inductive value :=
  | JNull
  | JBool (b : bool)
  | JNum (lexeme : str)
  | JStr (s : str)
  | JList (items : list value)
  | JDict (fields : list (str * value)).

(** What a call of [json.loads] does: it returns a value, raises
    [json.JSONDecodeError], or raises something else ([ValueError] for an
    integer beyond the digit limit, [RecursionError] for nesting beyond the
    recursion limit). *)
Inductive parsed :=
  | Value (v : value)
  | JSONDecodeError
  | OtherException (e : Exc.exn).

End Json.

Module Extractor.
Import Json Exc.

(** [for line in f]: the lines of a text, each with its newline; a last line
    without one is still a line. *)
Fixpoint lines_go (cur s : str) : list str :=
  match s with
  | [] => match cur with [] => [] | _ => [rev cur] end
  | c :: r =>
      if (c =? 10)%N then rev (c :: cur) :: lines_go [] r
      else lines_go (c :: cur) r
  end.

Definition file_lines (text : str) : list str := lines_go [] text.

(** [{"raw_line": line}]. *)
Definition raw_line_record (line : str) : value :=
  JDict [(lit "raw_line", JStr line)].

Section WithParser.

(** [json.loads]. *)
Variable json_loads : str -> parsed.

(** The [for line in f] loop, appending to [records]; its [except Exception]
    takes whatever the parse of a line raises. *)
Fixpoint parse_lines (records : list value) (lines : list str) : list value :=
  match lines with
  | [] => records
  | line :: rest =>
      let line := Py.strip_ws line in
      if Resolver.truthy line then
        match json_loads line with
        | Value v => parse_lines (records ++ [v]) rest
        | JSONDecodeError | OtherException _ =>
            parse_lines (records ++ [raw_line_record line]) rest
        end
      else parse_lines records rest
  end.

(** [obj if isinstance(obj, list) else [obj]]. *)
Definition as_records (obj : value) : list value :=
  match obj with
  | JList items => items
  | _ => [obj]
  end.

(** The [records] list after the [with open(...)] block; [text] is what
    [f.read()] returns.  The whole-file parse is guarded by
    [except json.JSONDecodeError] only: any other exception leaves the
    block. *)
Definition extract_records (text : str) : outcome (list value) :=
  let records := [] in
  match json_loads text with
  | Value obj => Ret (as_records obj)
  | JSONDecodeError => Ret (parse_lines records (file_lines text))
  | OtherException e => Raise e
  end.

(** The same block from the read on: [content] is what [f.read()] does, the
    text, or the exception it raises ([UnicodeDecodeError] for bytes that are
    not UTF-8). *)
Definition read_and_extract (content : outcome str) : outcome (list value) :=
  bind content extract_records.

(** [render_json_avro_view(records, file_path)] as seen by its caller: the
    list object passed in, after the call.  On a successful whole-file parse
    the function only rebinds its local name; in the fallback it appends to
    the list it was given; its outer [except Exception] takes everything
    else. *)
Definition render_json_avro_view (records : list value) (content : outcome str)
  : list value :=
  match content with
  | Raise _ => records
  | Ret t =>
      match json_loads t with
      | Value _ => records
      | JSONDecodeError => parse_lines records (file_lines t)
      | OtherException _ => records
      end
  end.

(** The list handed to [safe_cortex_call] in the [json]/[ndjson] branch. *)
Definition records_for_summary (text : str) : outcome (list value) :=
  bind (extract_records text)
    (fun records => Ret (render_json_avro_view records (Ret text))).

(** The per-line outcome, stated on its own. *)
Definition line_record (line : str) : value :=
  match json_loads line with
  | Value v => v
  | JSONDecodeError | OtherException _ => raw_line_record line
  end.

Definition nonblank_lines (text : str) : list str :=
  List.filter Resolver.truthy (map Py.strip_ws (file_lines text)).

End WithParser.

(** The older top-level script: the file is not rewound after the failed
    whole-file parse, so the loop starts at the end of the file, and a line
    that fails to parse is skipped. *)
Module Legacy.
Section WithParser.
Variable json_loads : str -> parsed.

Fixpoint parse_lines (records : list value) (lines : list str) : list value :=
  match lines with
  | [] => records
  | line :: rest =>
      let line := Py.strip_ws line in
      if Resolver.truthy line then
        match json_loads line with
        | Value v => parse_lines (records ++ [v]) rest
        | JSONDecodeError | OtherException _ => parse_lines records rest
        end
      else parse_lines records rest
  end.

Definition extract_records (text : str) : outcome (list value) :=
  let records := [] in
  match json_loads text with
  | Value obj => Ret (as_records obj)
  | JSONDecodeError =>
      let unread := [] in
      Ret (parse_lines records (file_lines unread))
  | OtherException e => Raise e
  end.

End WithParser.
End Legacy.

End Extractor.

(** ** A reference JSON reader

    Used to run the extractor on concrete files.  It reads the JSON grammar
    with integer numbers and with the two-character string escapes, and
    builds an object as [dict] does: a repeated key keeps its first place
    and its last value.  A text with a fraction, an exponent, a [\u]
    escape, [NaN] or [Infinity], or an integer beyond the digit limit is
    outside what it reads, and the examples stay inside.  Every statement
    about the extractor is made for an arbitrary parser. *)
Module JsonReader.
Import Json.

(** [d[k] = v] on the items of a [dict]. *)
Fixpoint dict_set (k : str) (v : value) (d : list (str * value))
  : list (str * value) :=
  match d with
  | [] => [(k, v)]
  | (k', v') :: rest =>
      if Py.str_eqb k' k then (k', v) :: rest
      else (k', v') :: dict_set k v rest
  end.

(** [dict(pairs)]. *)
Definition dict_of_pairs (pairs : list (str * value)) : list (str * value) :=
  fold_left (fun d '(k, v) => dict_set k v d) pairs [].

Definition is_ws (c : char) : bool :=
  ((c =? 32) || (c =? 9) || (c =? 10) || (c =? 13))%N.

Definition is_digit (c : char) : bool := ((48 <=? c) && (c <=? 57))%N.

Fixpoint skip_ws (s : str) : str :=
  match s with
  | c :: r => if is_ws c then skip_ws r else s
  | [] => []
  end.

Definition unescape (e : char) : option char :=
  (if e =? 34 then Some 34 else if e =? 92 then Some 92
   else if e =? 47 then Some 47 else if e =? 98 then Some 8
   else if e =? 102 then Some 12 else if e =? 110 then Some 10
   else if e =? 114 then Some 13 else if e =? 116 then Some 9
   else None)%N.

(** After the opening quote: the string and what follows its closing quote. *)
Fixpoint read_string (acc s : str) : option (str * str) :=
  match s with
  | [] => None
  | c :: r =>
      if (c =? 34)%N then Some (rev acc, r)
      else if (c =? 92)%N then
        match r with
        | e :: r' =>
            match unescape e with
            | Some x => read_string (x :: acc) r'
            | None => None
            end
        | [] => None
        end
      else if (c <? 32)%N then None
      else read_string (c :: acc) r
  end.

Fixpoint read_digits (acc s : str) : str * str :=
  match s with
  | c :: r => if is_digit c then read_digits (c :: acc) r else (rev acc, s)
  | [] => (rev acc, [])
  end.

(** An optional minus sign and a decimal integer without a leading zero,
    not followed by a fraction or an exponent. *)
Definition read_int (s : str) : option (str * str) :=
  let '(sign, s1) :=
    match s with
    | c :: r => if (c =? 45)%N then ([c], r) else ([], s)
    | [] => ([], s)
    end in
  let '(digits, rest) := read_digits [] s1 in
  let plain :=
    match rest with
    | c :: _ => negb ((c =? 46) || (c =? 101) || (c =? 69))%N
    | [] => true
    end in
  match digits with
  | [] => None
  | d :: more =>
      if ((d =? 48)%N && Resolver.truthy more) || negb plain then None
      else Some (sign ++ digits, rest)
  end.

Fixpoint read_value (fuel : nat) (s : str) {struct fuel} : option (value * str) :=
  match fuel with
  | O => None
  | S f =>
      match skip_ws s with
      | [] => None
      | c :: r =>
          if (c =? 123)%N then
            match skip_ws r with
            | d :: r' =>
                if (d =? 125)%N then Some (JDict [], r')
                else option_map (fun '(fs, rest) => (JDict fs, rest))
                       (read_members f [] (d :: r'))
            | [] => None
            end
          else if (c =? 91)%N then
            match skip_ws r with
            | d :: r' =>
                if (d =? 93)%N then Some (JList [], r')
                else option_map (fun '(vs, rest) => (JList vs, rest))
                       (read_elements f [] (d :: r'))
            | [] => None
            end
          else if (c =? 34)%N then
            option_map (fun '(x, rest) => (JStr x, rest)) (read_string [] r)
          else if Py.startswith (c :: r) (lit "true") then
            Some (JBool true, skipn 4 (c :: r))
          else if Py.startswith (c :: r) (lit "false") then
            Some (JBool false, skipn 5 (c :: r))
          else if Py.startswith (c :: r) (lit "null") then
            Some (JNull, skipn 4 (c :: r))
          else
            option_map (fun '(x, rest) => (JNum x, rest)) (read_int (c :: r))
      end
  end
with read_elements (fuel : nat) (acc : list value) (s : str) {struct fuel}
  : option (list value * str) :=
  match fuel with
  | O => None
  | S f =>
      match read_value f s with
      | Some (v, rest) =>
          match skip_ws rest with
          | c :: r =>
              if (c =? 44)%N then read_elements f (v :: acc) r
              else if (c =? 93)%N then Some (rev (v :: acc), r)
              else None
          | [] => None
          end
      | None => None
      end
  end
with read_members (fuel : nat) (acc : list (str * value)) (s : str) {struct fuel}
  : option (list (str * value) * str) :=
  match fuel with
  | O => None
  | S f =>
      match skip_ws s with
      | q :: r =>
          if (q =? 34)%N then
            match read_string [] r with
            | Some (k, rest) =>
                match skip_ws rest with
                | c :: r1 =>
                    if (c =? 58)%N then
                      match read_value f r1 with
                      | Some (v, rest2) =>
                          match skip_ws rest2 with
                          | d :: r2 =>
                              if (d =? 44)%N then read_members f ((k, v) :: acc) r2
                              else if (d =? 125)%N
                              then Some (dict_of_pairs (rev ((k, v) :: acc)), r2)
                              else None
                          | [] => None
                          end
                      | None => None
                      end
                    else None
                | [] => None
                end
            | None => None
            end
          else None
      | [] => None
      end
  end.

(** The whole text must be one value, blanks around it allowed. *)
Definition loads (s : str) : parsed :=
  match read_value (2 * length s + 2) s with
  | Some (v, rest) =>
      match skip_ws rest with
      | [] => Value v
      | _ => JSONDecodeError
      end
  | None => JSONDecodeError
  end.

(** A double-quoted token. *)
Definition q (s : string) : str := [34%N] ++ lit s ++ [34%N].

(** [{"a":1}], [{"b":2}] and the three-line file of the extractor example. *)
Definition obj_a : str := lit "{" ++ q "a" ++ lit ":1}".
Definition obj_b : str := lit "{" ++ q "b" ++ lit ":2}".
Definition ndjson_example : str :=
  obj_a ++ [10%N] ++ obj_b ++ [10%N] ++ lit "not-json" ++ [10%N].
Definition array_example : str :=
  lit "[" ++ lit "{" ++ q "a" ++ lit ":1}," ++ lit "{" ++ q "a" ++ lit ":2}]".

End JsonReader.

Module ExtractorExample.

(** What [f.read()] does on a file that holds the byte [0xff] and then the
    line [{"a":1}]: the bytes are not UTF-8. *)
Definition undecodable_file : Exc.outcome str :=
  Exc.Raise
    (Exc.OtherError (lit "UnicodeDecodeError")
       (lit "'utf-8' codec can't decode byte 0xff in position 0: invalid start byte")).

End ExtractorExample.

(** ** Self-describing record extractor (the [avro] branch) *)
Module Avro.
Import Exc.

Section WithReader.
Variables (record reader : Type).

(** One [next(reader)]. *)
Inductive step :=
  | Item (r : record) (rest : reader)
  | StopIteration
  | Failed (e : exn).

Variable next : reader -> step.

(** [for i, record in enumerate(reader)]: [fuel] bounds the number of
    iterations the model may take; [None] means it ran out. *)
Fixpoint read_loop (fuel : nat) (i : N) (rd : reader) (records : list record)
  : option (outcome (list record)) :=
  match fuel with
  | O => None
  | S fuel' =>
      match next rd with
      | StopIteration => Some (Ret records)
      | Failed e => Some (Raise e)
      | Item r rd' =>
          let records := records ++ [r] in
          if (9999999 <=? i)%N then Some (Ret records)
          else read_loop fuel' (i + 1) rd' records
      end
  end.

Definition read_records (fuel : nat) (rd : reader)
  : option (outcome (list record)) :=
  read_loop fuel 0 rd [].

(** The first [n] records of a stream, fewer if it ends or fails earlier. *)
Fixpoint first_records (n : nat) (rd : reader) : list record :=
  match n with
  | O => []
  | S n' =>
      match next rd with
      | Item r rd' => r :: first_records n' rd'
      | _ => []
      end
  end.

End WithReader.
Arguments Item {record reader} r rest.
Arguments StopIteration {record reader}.
Arguments Failed {record reader} e.
Arguments read_loop {record reader} next fuel i rd records.
Arguments read_records {record reader} next fuel rd.
Arguments first_records {record reader} next n rd.


(** A file holding the records of a list. *)
Definition from_list {record : Type} (l : list record) : step record (list record) :=
  match l with
  | [] => StopIteration
  | r :: rest => Item r rest
  end.

End Avro.

(** ** Columnar extractor ([show_parquet_metadata]) *)
Module Parquet.
Import Exc.
Local Open Scope exc_scope.

(** [col.statistics]; an attribute read gives [None] when the attribute is
    missing or is [None], and may raise. *)
Record statistics := {
  null_count : outcome (option Z);
  distinct_count : outcome (option Z);
  min : outcome (option str);
  max : outcome (option str);
  num_values : outcome (option Z)
}.

Record column_chunk := {
  path_in_schema : str;
  physical_type : str;
  compression : str;
  encodings : list str;
  col_statistics : outcome (option statistics)
}.

Record row_group := {
  rg_num_rows : Z;
  rg_total_byte_size : Z;
  rg_columns : list column_chunk
}.

Record schema_field := {
  field_name : str;
  field_type : str;
  field_nullable : option bool
}.

(** The footer of an opened file; [kv_metadata] holds the decoded pairs. *)
Record parquet_file := {
  file_path : str;
  created_by : option str;
  num_rows : option Z;
  num_columns : option Z;
  schema_arrow : list schema_field;
  kv_metadata : list (str * str);
  row_groups : list row_group
}.

(** The dictionaries the function builds. *)
Record stats_info := {
  si_null_count : option Z;
  si_distinct_count : option Z;
  si_min : option str;
  si_max : option str;
  si_num_values : option Z
}.

Record col_info := {
  ci_path_in_schema : str;
  ci_physical_type : str;
  ci_compression : str;
  ci_encodings : list str;
  ci_statistics : option stats_info
}.

Record rg_info := {
  ri_num_rows : Z;
  ri_total_byte_size : Z;
  ri_columns : list col_info
}.

Record overview_info := {
  ov_file_path : str;
  ov_created_by : option str;
  ov_num_rows : option Z;
  ov_num_columns : option Z;
  ov_num_row_groups : Z
}.

Record metadata := {
  overview : overview_info;
  schema_df : list schema_field;
  kv : list (str * str);
  md_row_groups : list rg_info
}.

(** [except (NotImplementedError, pyarrow.lib.ArrowNotImplementedError)]. *)
Definition is_not_implemented (e : exn) : bool :=
  match e with
  | NotImplementedError _ | ArrowNotImplementedError _ => true
  | _ => false
  end.

(** The body of the [try]: [None] when [col.statistics is None]. *)
Definition read_statistics (col : column_chunk) : outcome (option stats_info) :=
  s <- col_statistics col ;;
  match s with
  | None => Ret None
  | Some st =>
      nc <- null_count st ;;
      dc <- distinct_count st ;;
      lo <- min st ;;
      hi <- max st ;;
      nv <- num_values st ;;
      Ret (Some {| si_null_count := nc; si_distinct_count := dc;
                   si_min := lo; si_max := hi; si_num_values := nv |})
  end.

Definition with_statistics (col : column_chunk) (s : option stats_info)
  : col_info :=
  {| ci_path_in_schema := path_in_schema col;
     ci_physical_type := physical_type col;
     ci_compression := compression col;
     ci_encodings := encodings col;
     ci_statistics := s |}.

(** One pass of the inner loop. *)
Definition column_info (col : column_chunk) : outcome col_info :=
  try_except
    (s <- read_statistics col ;; Ret (with_statistics col s))
    (fun e =>
       if is_not_implemented e then Ret (with_statistics col None)
       else Raise e).

(** One pass of the outer loop. *)
Definition row_group_info (rg : row_group) : outcome rg_info :=
  cols <- for_each column_info (rg_columns rg) ;;
  Ret {| ri_num_rows := rg_num_rows rg;
         ri_total_byte_size := rg_total_byte_size rg;
         ri_columns := cols |}.

Definition show_parquet_metadata (f : parquet_file) : outcome metadata :=
  let overview :=
    {| ov_file_path := file_path f;
       ov_created_by := created_by f;
       ov_num_rows := num_rows f;
       ov_num_columns := num_columns f;
       ov_num_row_groups := Z.of_nat (length (row_groups f)) |} in
  rgs <- for_each row_group_info (row_groups f) ;;
  Ret {| overview := overview;
         schema_df := schema_arrow f;
         kv := kv_metadata f;
         md_row_groups := rgs |}.

(** What a column contributes when nothing but "not implemented" is ever
    raised for it. *)
Definition tolerant_column_info (col : column_chunk) : col_info :=
  with_statistics col
    match read_statistics col with
    | Ret s => s
    | Raise _ => None
    end.

Definition tolerant_row_group_info (rg : row_group) : rg_info :=
  {| ri_num_rows := rg_num_rows rg;
     ri_total_byte_size := rg_total_byte_size rg;
     ri_columns := map tolerant_column_info (rg_columns rg) |}.

End Parquet.

(** A column whose statistics read normally, and one whose [min] is not
    implemented for its physical type. *)
Module ParquetExample.
Import Exc Parquet.

Definition id_stats : statistics :=
  {| null_count := Ret (Some 0%Z);
     distinct_count := Ret None;
     min := Ret (Some (lit "1"));
     max := Ret (Some (lit "42"));
     num_values := Ret (Some 3%Z) |}.

Definition id_column : column_chunk :=
  {| path_in_schema := lit "id";
     physical_type := lit "INT64";
     compression := lit "SNAPPY";
     encodings := [lit "PLAIN"; lit "RLE"];
     col_statistics := Ret (Some id_stats) |}.

Definition payload_stats : statistics :=
  {| null_count := Ret (Some 0%Z);
     distinct_count := Ret None;
     min := Raise (ArrowNotImplementedError (lit "min/max not implemented"));
     max := Raise (ArrowNotImplementedError (lit "min/max not implemented"));
     num_values := Ret (Some 3%Z) |}.

Definition payload_column : column_chunk :=
  {| path_in_schema := lit "payload";
     physical_type := lit "INT96";
     compression := lit "SNAPPY";
     encodings := [lit "PLAIN"];
     col_statistics := Ret (Some payload_stats) |}.

Definition sample_file : parquet_file :=
  {| file_path := lit "/tmp/sf_stage_x/part-0.parquet";
     created_by := Some (lit "parquet-mr");
     num_rows := Some 3%Z;
     num_columns := Some 2%Z;
     schema_arrow :=
       [ {| field_name := lit "id"; field_type := lit "int64";
            field_nullable := Some false |};
         {| field_name := lit "payload"; field_type := lit "timestamp[ns]";
            field_nullable := Some true |} ];
     kv_metadata := [];
     row_groups :=
       [ {| rg_num_rows := 3; rg_total_byte_size := 120;
            rg_columns := [id_column; payload_column] |} ] |}.

End ParquetExample.

(** [json.dumps(s, ensure_ascii=False)] on a [str]: the text between double
    quotes, with a backslash before a double quote and a backslash, the
    two-character escapes for backspace, form feed, newline, carriage return
    and tab, and [\u00xx] for the other characters below U+0020; every other
    character is written as it is. *)
Module JsonWriter.

Definition hex_digit (n : N) : char := (if n <? 10 then 48 + n else 87 + n)%N.

Definition json_escape (c : char) : str :=
  (if c =? 34 then [92; 34]
   else if c =? 92 then [92; 92]
   else if c =? 10 then [92; 110]
   else if c =? 13 then [92; 114]
   else if c =? 9 then [92; 116]
   else if c =? 8 then [92; 98]
   else if c =? 12 then [92; 102]
   else if c <? 32 then [92; 117; 48; 48; hex_digit (c / 16); hex_digit (c mod 16)]
   else [c])%N.

Definition json_dumps_str (s : str) : str :=
  [34%N] ++ flat_map json_escape s ++ [34%N].



End JsonWriter.

(** ** Summarization adapter ([cleanse_for_cortex], [safe_cortex_call]) *)
Module Cortex.
Import Exc.
Local Open Scope exc_scope.

(** [s.replace(old, new)] for a one-character [old]. *)
Definition replace_char (old : char) (new s : str) : str :=
  flat_map (fun c => if (c =? old)%N then new else [c]) s.

(** The class [[\n\r\t]]. *)
Definition is_nl_cr_tab (c : char) : bool :=
  ((c =? 10) || (c =? 13) || (c =? 9))%N.

(** The class [[\x00-\x1f\x7f-\x9f]]. *)
Definition is_control (c : char) : bool :=
  ((c <=? 31) || (127 <=? c) && (c <=? 159))%N.

Definition next_in (cls : char -> bool) (r : str) : bool :=
  match r with
  | c :: _ => cls c
  | [] => false
  end.

(** [re.sub(pattern, ' ', s)] for a pattern that is a character class
    repeated: [cls+] when [two] is false, [cls{2,}] when it is true.  The
    scan goes left to right and a match takes the whole run; [in_run] is
    true while the rest of a matched run is being consumed. *)
Fixpoint sub_runs (cls : char -> bool) (two in_run : bool) (s : str) : str :=
  match s with
  | [] => []
  | c :: r =>
      if cls c then
        if in_run then sub_runs cls two true r
        else if two && negb (next_in cls r) then c :: sub_runs cls two false r
        else 32%N :: sub_runs cls two true r
      else c :: sub_runs cls two false r
  end.

Definition re_sub_plus (cls : char -> bool) (s : str) : str :=
  sub_runs cls false false s.

Definition re_sub_two_or_more (cls : char -> bool) (s : str) : str :=
  sub_runs cls true false s.

(** The four substitutions of [cleanse_for_cortex], before the slice. *)
Definition escape_text (s : str) : str :=
  let s := replace_char 39 [39; 39]%N s in
  let s := re_sub_plus is_nl_cr_tab s in
  let s := re_sub_plus is_control s in
  let s := re_sub_two_or_more Py.isspace s in
  s.

(** One row set returned by [session.sql(...).to_pandas()]; a cell is a text
    or SQL [NULL], and every row has one cell per column. *)
Record dataframe := {
  columns : list str;
  rows : list (list (option str))
}.

(** What an indexing of the frame gives: one cell, or a [Series] of cells. *)
Inductive answer :=
  | Cell (v : option str)
  | Series (vs : list (option str)).

(** The cells of a row under the columns named [name], in column order. *)
Fixpoint labelled (name : str) (cols : list str) (row : list (option str))
  : list (option str) :=
  match cols, row with
  | c :: cols', v :: row' =>
      if Py.str_eqb c name then v :: labelled name cols' row'
      else labelled name cols' row'
  | _, _ => []
  end.

(** [df.iloc[0][name]]: the cell under the column of that name, or a
    [Series] of the cells when several columns have the name. *)
Definition iloc_label (df : dataframe) (name : str) : outcome answer :=
  match rows df with
  | [] => Raise (IndexError (lit "single positional indexer is out-of-bounds"))
  | row :: _ =>
      match labelled name (columns df) row with
      | [] => Raise (OtherError (lit "KeyError") (lit "'" ++ name ++ lit "'"))
      | [v] => Ret (Cell v)
      | vs => Ret (Series vs)
      end
  end.

(** [df.iloc[0, 0]]. *)
Definition iloc_pos (df : dataframe) : outcome answer :=
  match rows df with
  | [] =>
      Raise (IndexError (lit "index 0 is out of bounds for axis 0 with size 0"))
  | row :: _ =>
      match row with
      | v :: _ => Ret (Cell v)
      | [] =>
          Raise (IndexError (lit "index 0 is out of bounds for axis 0 with size 0"))
      end
  end.

(** The f-string [sql_ai]. *)
Definition sql_ai (safe_text : str) : str :=
  [10%N] ++ lit "            SELECT SNOWFLAKE.CORTEX.COMPLETE("
  ++ [10%N] ++ lit "                'mistral-large',"
  ++ [10%N] ++ lit "                'Can you summarize the output here in bullets?: "
  ++ safe_text ++ lit "'"
  ++ [10%N] ++ lit "            ) AS MODEL_OUTPUT;"
  ++ [10%N] ++ lit "        ".

Section WithSession.

Variable record : Type.
(** [json.dumps(record, default=str, ensure_ascii=False)] and [str(record)]. *)
Variable json_dumps : record -> outcome str.
Variable py_str : record -> outcome str.
(** [session.sql(query).to_pandas()]. *)
Variable session_sql : str -> outcome dataframe.

(** The [try]/[except] that opens [cleanse_for_cortex]. *)
Definition serialize (r : record) : outcome str :=
  try_except (json_dumps r) (fun _ => py_str r).

Definition cleanse_for_cortex (r : record) (max_len : Z) : outcome str :=
  s <- serialize r ;;
  Ret (Py.slice_to (escape_text s) max_len).

(** The body of the [try] in [safe_cortex_call]. *)
Definition cortex_request (r : record) : outcome answer :=
  safe_text <- cleanse_for_cortex r 3000 ;;
  df_ai <- session_sql (sql_ai safe_text) ;;
  if existsb (Py.str_eqb (lit "MODEL_OUTPUT")) (columns df_ai)
  then iloc_label df_ai (lit "MODEL_OUTPUT")
  else iloc_pos df_ai.

(** [f"AI summary skipped: {e}"]. *)
Definition skipped (e : exn) : str := lit "AI summary skipped: " ++ exn_message e.

Definition safe_cortex_call (r : record) : outcome answer :=
  try_except (cortex_request r) (fun e => Ret (Cell (Some (skipped e)))).

End WithSession.

(** *** Vocabulary for the properties of the sanitized text *)

(** Every maximal run of single quotes has even length: [odd] is true after
    an odd number of quotes in the current run. *)
Fixpoint quotes_paired_from (odd : bool) (s : str) : bool :=
  match s with
  | [] => negb odd
  | c :: r =>
      if (c =? 39)%N then quotes_paired_from (negb odd) r
      else negb odd && quotes_paired_from false r
  end.

Definition quotes_paired (s : str) : bool := quotes_paired_from false s.

(** No two neighbouring characters are both whitespace. *)
Fixpoint no_space_pair (s : str) : bool :=
  match s with
  | [] => true
  | c :: r => negb (Py.isspace c && next_in Py.isspace r) && no_space_pair r
  end.

Definition no_control (s : str) : bool := forallb (fun c => negb (is_control c)) s.

(** Neither a control character nor whitespace. *)
Definition visible (c : char) : bool := negb (is_control c || Py.isspace c).



End Cortex.

(** Records that are already text, a session that is down, and one that
    answers. *)
Module CortexExample.
Import Exc Cortex.

(** A record that is a [str]: [json.dumps] quotes it and [str] returns it. *)
Definition text_dumps (r : str) : outcome str := Ret (JsonWriter.json_dumps_str r).
Definition text_str (r : str) : outcome str := Ret r.

(** A record [json.dumps] rejects (a dict with a tuple key), given by the
    text [str] shows for it. *)
Definition rejecting_dumps (r : str) : outcome str :=
  Raise (OtherError (lit "TypeError")
           (lit "keys must be str, int, float, bool or None, not tuple")).

Definition session_down (query : str) : outcome dataframe :=
  Raise (OtherError (lit "SnowparkSQLException") (lit "service unavailable")).

Definition session_up (query : str) : outcome dataframe :=
  Ret {| columns := [lit "MODEL_OUTPUT"]; rows := [[Some (lit "- two rows")]] |}.

(** An answer without the [MODEL_OUTPUT] column, and one whose only cell is
    [NULL]. *)
Definition session_other_column (query : str) : outcome dataframe :=
  Ret {| columns := [lit "ANSWER"]; rows := [[Some (lit "- ok")]] |}.

Definition session_null (query : str) : outcome dataframe :=
  Ret {| columns := [lit "ANSWER"]; rows := [[None]] |}.

(** An answer with two columns named [MODEL_OUTPUT]. *)
Definition session_twice (query : str) : outcome dataframe :=
  Ret {| columns := [lit "MODEL_OUTPUT"; lit "MODEL_OUTPUT"];
         rows := [[Some (lit "- one"); Some (lit "- two")]] |}.

Definition quoted_record : str := lit "it's" ++ [10%N] ++ lit "ok".

End CortexExample.

(** ** Scratch directory of a "Read File" request *)
Module Scratch.
Import Exc.

(** The temporary area: every scratch directory with the names of the files
    in it. *)
Abbreviation tmpfs := (gmap (list N) (list (list N))).

(** A step that may change the temporary area and may raise; the area keeps
    the changes made before a raise. *)
Definition action (A : Type) : Type := tmpfs -> outcome A * tmpfs.

Definition ret {A : Type} (a : A) : action A := fun fs => (Ret a, fs).

Definition bind {A B : Type} (m : action A) (k : A -> action B) : action B :=
  fun fs =>
    match m fs with
    | (Ret a, fs') => k a fs'
    | (Raise e, fs') => (Raise e, fs')
    end.

(** [try: body  except Exception as e: handler(e)]. *)
Definition try_except {A : Type} (body : action A) (handler : exn -> action A)
  : action A :=
  fun fs =>
    match body fs with
    | (Ret a, fs') => (Ret a, fs')
    | (Raise e, fs') => handler e fs'
    end.

(** [try: body  finally: final]: [final] runs whatever [body] did; if it
    raises, its exception replaces the outcome of [body]. *)
Definition try_finally {A : Type} (body : action A) (final : action unit)
  : action A :=
  fun fs =>
    let '(r, fs1) := body fs in
    match final fs1 with
    | (Ret _, fs2) => (r, fs2)
    | (Raise e, fs2) => (Raise e, fs2)
    end.

(** [shutil.rmtree(d)]. *)
Definition rmtree (d : str) : action unit :=
  fun fs =>
    match fs !! d with
    | Some _ => (Ret tt, delete d fs)
    | None => (Raise (FileNotFoundError d), fs)
    end.

Section Request.

(** The directory name [tempfile.mkdtemp(prefix="sf_stage_")] picks. *)
Variable mkdtemp_name : tmpfs -> str.

Definition mkdtemp : action str :=
  fun fs => let d := mkdtemp_name fs in (Ret d, <[d := []]> fs).

(** [os.path.join(tmp_dir, os.path.basename(path))] and
    [os.path.splitext(path)[1].lower().lstrip(".")]. *)
Variable local_path : str -> str -> str.
Variable file_ext_of : str -> str.

(** [session.file.get(stage_path, tmp_dir)], and the three branches that
    read, render and summarize the downloaded file. *)
Variable file_get : str -> str -> action unit.
Variable read_json read_avro read_parquet : str -> action unit.

(** The statements inside the [try]. *)
Definition attempt (resolved_stage selected_file_only_path : str)
    (tmp_dir local_file_path file_ext : str) : action unit :=
  bind
    (file_get (lit "@" ++ resolved_stage ++ lit "/" ++ selected_file_only_path)
       tmp_dir)
    (fun _ =>
       if Py.str_eqb file_ext (lit "json") || Py.str_eqb file_ext (lit "ndjson")
       then read_json local_file_path
       else if Py.str_eqb file_ext (lit "avro") then read_avro local_file_path
       else if Py.str_eqb file_ext (lit "parquet")
       then read_parquet local_file_path
       else ret tt).

(** The [if st.button("Read File")] block, from [mkdtemp] on. *)
Definition read_file (resolved_stage selected_file_only_path : str)
  : action unit :=
  bind mkdtemp (fun tmp_dir =>
    let local_file_path := local_path tmp_dir selected_file_only_path in
    let file_ext := file_ext_of local_file_path in
    try_finally
      (try_except
         (attempt resolved_stage selected_file_only_path
            tmp_dir local_file_path file_ext)
         (fun e => ret tt))
      (try_except (rmtree tmp_dir) (fun _ => ret tt))).

End Request.

(** A collaborator that leaves every directory but [d] as it was. *)
Definition only_touches {A : Type} (d : str) (a : action A) : Prop :=
  forall (fs : tmpfs) (d' : str), d' <> d -> snd (a fs) !! d' = fs !! d'.

End Scratch.

(** A download that writes the file and then fails, into an area that
    already holds an unrelated directory. *)
Module ScratchExample.
Import Exc Scratch.

Definition picked_name (fs : tmpfs) : str := lit "sf_stage_k3x9q2ab".

Definition join_path (dir path : str) : str := dir ++ lit "/" ++ path.

Definition ext_json (path : str) : str := lit "json".

Definition failing_get (src tmp_dir : str) : action unit :=
  fun fs => (Raise (OtherError (lit "SnowparkSQLException") (lit "stage not found")),
             <[tmp_dir := [lit "part-0.json"]]> fs).

Definition quiet_reader (path : str) : action unit := ret tt.

Definition other_area : tmpfs := {[ lit "cache" := [lit "kept.bin"] ]}.

End ScratchExample.

(** ** Location descriptor parser (the "Extract DDL Details" block) *)
Module Ddl.

Definition ascii_lower (c : char) : char :=
  (if (65 <=? c) && (c <=? 90) then c + 32 else c)%N.

(** Does the subject character [c] match the ASCII pattern character [p]
    under [re.IGNORECASE]?  Besides the two cases of a letter, [i] matches
    U+0130 and U+0131, [s] matches U+017F and [k] matches U+212A. *)
Definition ci_match (p c : char) : bool :=
  let lp := ascii_lower p in
  ((ascii_lower c =? lp)
   || (lp =? 105) && ((c =? 304) || (c =? 305))
   || (lp =? 115) && (c =? 383)
   || (lp =? 107) && (c =? 8490))%N.

(** The literal [key] at the start of [s], letters in either case: what
    follows it. *)
Fixpoint ci_prefix (key s : str) {struct key} : option str :=
  match key with
  | [] => Some s
  | p :: key' =>
      match s with
      | [] => None
      | c :: s' => if ci_match p c then ci_prefix key' s' else None
      end
  end.

(** The class of the two quote characters, single and double. *)
Definition is_quote (c : char) : bool := ((c =? 39) || (c =? 34))%N.

(** The longest run of characters outside the class, and what follows. *)
Fixpoint span_unquoted (s : str) : str * str :=
  match s with
  | [] => ([], [])
  | c :: r =>
      if is_quote c then ([], s)
      else let '(v, rest) := span_unquoted r in (c :: v, rest)
  end.

(** The pattern tried at the start of [s]: the key, [\s*], [=], [\s*], a
    quote, group 1 (one or more characters that are not quotes, as many as
    there are) and a quote.  The result is group 1. *)
Definition match_at (key s : str) : option str :=
  match ci_prefix key s with
  | None => None
  | Some s1 =>
      match Py.lstrip_by Py.isspace s1 with
      | eq :: s2 =>
          if (eq =? 61)%N then
            match Py.lstrip_by Py.isspace s2 with
            | q1 :: s3 =>
                if is_quote q1 then
                  match span_unquoted s3 with
                  | (c :: v, q2 :: _) => Some (c :: v)
                  | _ => None
                  end
                else None
            | [] => None
            end
          else None
      | [] => None
      end
  end.

(** [re.search(pattern, ddl, re.IGNORECASE)]: the leftmost start at which
    the pattern matches; [m.group(1) if m else None]. *)
Fixpoint search (key ddl : str) : option str :=
  match match_at key ddl with
  | Some v => Some v
  | None =>
      match ddl with
      | [] => None
      | _ :: rest => search key rest
      end
  end.

Record location_descriptor := {
  external_volume_name : option str;
  catalog_name : option str;
  base_location : option str
}.

(** "Clean up": [if x: x = x.rstrip("/*").rstrip("/")]. *)
Definition clean_field (x : option str) : option str :=
  match x with
  | Some v => if Resolver.truthy v then Some (Resolver.clean_path v) else Some v
  | None => None
  end.

Definition parse_ddl (ddl : str) : location_descriptor :=
  {| external_volume_name := clean_field (search (lit "EXTERNAL_VOLUME") ddl);
     catalog_name := clean_field (search (lit "CATALOG") ddl);
     base_location := clean_field (search (lit "BASE_LOCATION") ddl) |}.

(** [key] and [k] are the same word up to the case of letters. *)
Definition ci_equal (key k : str) : Prop :=
  Forall2 (fun p c => ci_match p c = true) key k.

(** The parts of a text on which the pattern matches from its start: the
    key as written, the whitespace before and after [=], the two quotes and
    the value. *)
Definition assignment (key k ws1 ws2 : str) (q1 : char) (v : str) (q2 : char)
    (rest : str) : Prop :=
  ci_equal key k
  /\ forallb Py.isspace ws1 = true /\ forallb Py.isspace ws2 = true
  /\ is_quote q1 = true /\ is_quote q2 = true
  /\ v <> [] /\ forallb (fun c => negb (is_quote c)) v = true.

(** No occurrence of [key], in either case, starts at one of the first [n]
    positions of [s]. *)
Fixpoint no_key_before (key : str) (n : nat) (s : str) : bool :=
  match n with
  | O => true
  | S n' =>
      match ci_prefix key s with
      | Some _ => false
      | None =>
          match s with
          | [] => true
          | _ :: r => no_key_before key n' r
          end
      end
  end.

End Ddl.

Module DdlExample.

(** A statement with the three assignments, the last one in lower case,
    double-quoted and on a line of its own. *)
Definition ddl_head : str :=
  lit "create or replace iceberg table T1 (ID NUMBER)" ++ [10%N]
  ++ lit " EXTERNAL_VOLUME = 'VOL1'" ++ [10%N]
  ++ lit " CATALOG='SNOWFLAKE'" ++ [10%N; 32%N].

Definition sample_ddl : str :=
  ddl_head ++ lit "base_location" ++ [10%N; 9%N] ++ lit "=" ++ lit "  "
  ++ [34%N] ++ lit "/db/t1/" ++ [34%N] ++ lit ";".

End DdlExample.

(** ** File selection (the "File Selection" block) *)
Module Selection.

(** The path kept from a listed name: the stage URL is cut off when the
    name begins with it, and leading [/] are dropped either way. *)
Definition strip_stage_url (stage_url selected_file_only_path : str) : str :=
  if Resolver.truthy stage_url && Py.startswith selected_file_only_path stage_url
  then Py.lstrip (lit "/")
         (Py.slice_from selected_file_only_path (length stage_url))
  else Py.lstrip (lit "/") selected_file_only_path.

(** The "Dropdown" branch: from the chosen label to the path. *)
Definition dropdown_choice (stage_url selected_file : str) : str :=
  strip_stage_url stage_url (Lister.selected_name selected_file).

(** The same branch from the value of the select box, which lists
    [Select One] before the labels; [None] is the stop at that entry. *)
Definition dropdown (stage_url selected_file : str) : option str :=
  if Py.str_eqb selected_file (lit "Select One") then None
  else Some (dropdown_choice stage_url selected_file).

(** The "Search by Name" branch when exactly one row matches: the path is
    taken from the [NAME] column, not from a label. *)
Definition single_match (stage_url : str) (e : Lister.object_entry) : str :=
  strip_stage_url stage_url (Lister.NAME e).

End Selection.

Module SelectionExample.
Import Lister.

Definition listed_object : object_entry :=
  {| NAME := lit "s3://bucket/mount-1/db/t1/part-0.parquet";
     LAST_MODIFIED := lit "2024-05-01 10:00:00" |}.

End SelectionExample.

(** ** The text file behind [open(local_file_path, "r")]

    A handle is the decoded text and the position of the next read. *)
Module TextFile.
Import Json Extractor.

Record handle := {
  content : str;
  position : nat
}.

Definition open_text (text : str) : handle :=
  {| content := text; position := 0 |}.

(** [f.read()]: everything from the position on; the position moves to the
    end. *)
Definition read (f : handle) : str * handle :=
  (skipn (position f) (content f),
   {| content := content f; position := length (content f) |}).

(** [f.seek(n)]. *)
Definition seek (f : handle) (n : nat) : handle :=
  {| content := content f; position := n |}.

(** [for line in f]: the lines from the position on. *)
Definition lines (f : handle) : list str * handle :=
  (file_lines (skipn (position f) (content f)),
   {| content := content f; position := length (content f) |}).

Section WithParser.
Variable json_loads : str -> parsed.

(** [json.load(f)]. *)
Definition json_load (f : handle) : parsed * handle :=
  let '(text, f) := read f in (json_loads text, f).

(** The [json]/[ndjson] block of the app script, on a handle. *)
Definition read_records (text : str) : Exc.outcome (list value) :=
  let records := [] in
  let f := open_text text in
  let '(obj, f) := json_load f in
  match obj with
  | Value obj => Exc.Ret (as_records obj)
  | JSONDecodeError =>
      let f := seek f 0 in
      let '(ls, f) := lines f in
      Exc.Ret (parse_lines json_loads records ls)
  | OtherException e => Exc.Raise e
  end.

(** The same block of the older top-level script: no [seek], and a line
    that fails to parse is passed over. *)
Definition legacy_read_records (text : str) : Exc.outcome (list value) :=
  let records := [] in
  let f := open_text text in
  let '(obj, f) := json_load f in
  match obj with
  | Value obj => Exc.Ret (as_records obj)
  | JSONDecodeError =>
      let '(ls, f) := lines f in
      Exc.Ret (Legacy.parse_lines json_loads records ls)
  | OtherException e => Exc.Raise e
  end.

End WithParser.
End TextFile.

(** ** The Parquet view ([render_parquet_view]) *)
Module ParquetView.
Import Parquet.

(** One row of the table shown for a row group. *)
Record display_row := {
  dr_path_in_schema : str;
  dr_physical_type : str;
  dr_compression : str;
  dr_encodings : str;
  dr_null_count : option Z;
  dr_distinct_count : option Z;
  dr_min : option str;
  dr_max : option str;
  dr_num_values : option Z
}.

(** [stats = c.get("statistics") or {}] followed by the [stats.get] reads. *)
Definition row_of (c : col_info) : display_row :=
  let stats := ci_statistics c in
  {| dr_path_in_schema := ci_path_in_schema c;
     dr_physical_type := ci_physical_type c;
     dr_compression := ci_compression c;
     dr_encodings := Py.join (lit ", ") (ci_encodings c);
     dr_null_count := match stats with Some s => si_null_count s | None => None end;
     dr_distinct_count :=
       match stats with Some s => si_distinct_count s | None => None end;
     dr_min := match stats with Some s => si_min s | None => None end;
     dr_max := match stats with Some s => si_max s | None => None end;
     dr_num_values := match stats with Some s => si_num_values s | None => None end |}.

(** [enumerate(xs, start=i)]. *)
Fixpoint enumerate_from {A : Type} (i : nat) (xs : list A) : list (nat * A) :=
  match xs with
  | [] => []
  | x :: rest => (i, x) :: enumerate_from (S i) rest
  end.

(** One expander of the view: its number, the header and the rows. *)
Record row_group_view := {
  rv_number : nat;
  rv_num_rows : Z;
  rv_total_byte_size : Z;
  rv_rows : list display_row
}.

(** The row-group expanders of [render_parquet_view]. *)
Definition render_row_groups (md : metadata) : list row_group_view :=
  map (fun '(i, rg) =>
         {| rv_number := i;
            rv_num_rows := ri_num_rows rg;
            rv_total_byte_size := ri_total_byte_size rg;
            rv_rows := map row_of (ri_columns rg) |})
      (enumerate_from 1 (md_row_groups md)).

(** All five statistic cells of a row are empty. *)
Definition no_stat_cells (r : display_row) : Prop :=
  dr_null_count r = None /\ dr_distinct_count r = None /\ dr_min r = None
  /\ dr_max r = None /\ dr_num_values r = None.

(** Reading the statistics of the column returns, or raises one of the two
    exceptions the inner [try] catches. *)
Definition tolerable (col : column_chunk) : bool :=
  match read_statistics col with
  | Exc.Ret _ => true
  | Exc.Raise e => is_not_implemented e
  end.

End ParquetView.

(** Vocabulary for the paths the older resolver cuts. *)
Module LegacyPath.

(** A path segment: a text without [/]. *)
Definition no_slash (s : str) : bool := forallb (fun c => negb (c =? 47)%N) s.

End LegacyPath.

(** [b.decode("utf-8", "ignore")] on a byte string, a list of numbers below
    256.  A byte that cannot start a sequence is dropped; when a sequence
    breaks off at a byte that cannot continue it, the bytes before that one
    are dropped and decoding resumes there; a sequence cut by the end of the
    input is dropped. *)
Module Utf8.

Abbreviation bytes := (list N).

Definition is_continuation (b : N) : bool := ((128 <=? b) && (b <=? 191))%N.

(** The second byte is not a continuation byte, or gives an overlong form
    or a surrogate. *)
Definition bad_second3 (b b2 : N) : bool :=
  negb (is_continuation b2) || (if b2 <? 160 then b =? 224 else b =? 237)%N.

(** The second byte is not a continuation byte, or gives an overlong form
    or a code point above U+10FFFF. *)
Definition bad_second4 (b b2 : N) : bool :=
  negb (is_continuation b2) || (if b2 <? 144 then b =? 240 else b =? 244)%N.

Fixpoint decode_ignore (s : bytes) : str :=
  match s with
  | [] => []
  | b :: r =>
      if (b <? 128)%N then b :: decode_ignore r
      else if (b <? 194)%N then decode_ignore r
      else if (b <? 224)%N then
        match r with
        | [] => []
        | b2 :: r2 =>
            if is_continuation b2
            then ((b - 192) * 64 + (b2 - 128))%N :: decode_ignore r2
            else decode_ignore r
        end
      else if (b <? 240)%N then
        match r with
        | [] => []
        | b2 :: r2 =>
            if bad_second3 b b2 then decode_ignore r
            else
              match r2 with
              | [] => []
              | b3 :: r3 =>
                  if is_continuation b3
                  then ((b - 224) * 4096 + (b2 - 128) * 64 + (b3 - 128))%N
                       :: decode_ignore r3
                  else decode_ignore r2
              end
        end
      else if (b <? 245)%N then
        match r with
        | [] => []
        | b2 :: r2 =>
            if bad_second4 b b2 then decode_ignore r
            else
              match r2 with
              | [] => []
              | b3 :: r3 =>
                  if negb (is_continuation b3) then decode_ignore r2
                  else
                    match r3 with
                    | [] => []
                    | b4 :: r4 =>
                        if is_continuation b4
                        then ((b - 240) * 262144 + (b2 - 128) * 4096
                              + (b3 - 128) * 64 + (b4 - 128))%N
                             :: decode_ignore r4
                        else decode_ignore r3
                    end
              end
        end
      else decode_ignore r
  end.

(** Every byte is below 128. *)
Definition is_ascii (s : bytes) : bool := forallb (fun b => b <? 128)%N s.

End Utf8.

(** The key-value block of [show_parquet_metadata]: [meta.metadata] is
    [None] or a dict from bytes to bytes, given by its items in order.  Keys
    and values being bytes, the [str(k)] alternative is not taken, and
    decoding with [ignore] does not raise, so the [except] is not reached. *)
Module ParquetKv.
Import Utf8.

Definition kv_step (kv : gmap str str) (item : bytes * bytes) : gmap str str :=
  let '(k, v) := item in
  let k_str := decode_ignore k in
  let v_str := decode_ignore v in
  <[k_str := v_str]> kv.

Definition kv_of (metadata : option (list (bytes * bytes))) : gmap str str :=
  match metadata with
  | None => empty
  | Some items => fold_left kv_step items empty
  end.

End ParquetKv.

(** Two raw keys that differ only in a byte that cannot be decoded. *)
Module ParquetKvExample.

Definition clashing_items : list (Utf8.bytes * Utf8.bytes) :=
  [ ([97; 255]%N, lit "first"); (lit "a", lit "second") ].

(** The keys a writer usually leaves. *)
Definition usual_items : list (Utf8.bytes * Utf8.bytes) :=
  [ (lit "pandas", lit "{}"); (lit "ARROW:schema", [255; 255; 120]%N) ].

End ParquetKvExample.

(** A file with a column whose statistics cannot be read at all. *)
Module ParquetViewExample.
Import Exc Parquet.

Definition broken_column : column_chunk :=
  {| path_in_schema := lit "blob";
     physical_type := lit "BYTE_ARRAY";
     compression := lit "SNAPPY";
     encodings := [lit "PLAIN"];
     col_statistics := Raise (OtherError (lit "ValueError") (lit "bad statistics")) |}.

Definition broken_group : row_group :=
  {| rg_num_rows := 3; rg_total_byte_size := 200;
     rg_columns := [ParquetExample.payload_column; broken_column;
                    ParquetExample.id_column] |}.

Definition broken_file : parquet_file :=
  {| file_path := lit "/tmp/sf_stage_x/part-1.parquet";
     created_by := Some (lit "parquet-mr");
     num_rows := Some 3%Z;
     num_columns := Some 3%Z;
     schema_arrow := [];
     kv_metadata := [];
     row_groups := [broken_group] |}.

End ParquetViewExample.

(** What the footer of a file says, read off its fields without the
    function: the terms in which the result of [show_parquet_metadata] is
    stated. *)
Module ParquetExpected.
Import Exc Parquet.

(** The exception met first when the statistics of a column are read, in
    the order [statistics], [null_count], [distinct_count], [min], [max],
    [num_values]; [None] when every read returns. *)
Definition first_raise (col : column_chunk) : option exn :=
  match col_statistics col with
  | Raise e => Some e
  | Ret None => None
  | Ret (Some st) =>
      match null_count st, distinct_count st, min st, max st, num_values st with
      | Raise e, _, _, _, _ => Some e
      | Ret _, Raise e, _, _, _ => Some e
      | Ret _, Ret _, Raise e, _, _ => Some e
      | Ret _, Ret _, Ret _, Raise e, _ => Some e
      | Ret _, Ret _, Ret _, Ret _, Raise e => Some e
      | Ret _, Ret _, Ret _, Ret _, Ret _ => None
      end
  end.

(** The five statistics of a column when the column has statistics and each
    of the five is readable; absent otherwise. *)
Definition statistics_entry (col : column_chunk) : option stats_info :=
  match col_statistics col with
  | Ret (Some st) =>
      match null_count st, distinct_count st, min st, max st, num_values st with
      | Ret nc, Ret dc, Ret lo, Ret hi, Ret nv =>
          Some {| si_null_count := nc; si_distinct_count := dc;
                  si_min := lo; si_max := hi; si_num_values := nv |}
      | _, _, _, _, _ => None
      end
  | _ => None
  end.

Definition column_entry (col : column_chunk) : col_info :=
  {| ci_path_in_schema := path_in_schema col;
     ci_physical_type := physical_type col;
     ci_compression := compression col;
     ci_encodings := encodings col;
     ci_statistics := statistics_entry col |}.

Definition row_group_entry (rg : row_group) : rg_info :=
  {| ri_num_rows := rg_num_rows rg;
     ri_total_byte_size := rg_total_byte_size rg;
     ri_columns := map column_entry (rg_columns rg) |}.

(** One of the two exceptions the inner [except] names. *)
Definition not_implemented (e : exn) : Prop :=
  exists msg, e = NotImplementedError msg \/ e = ArrowNotImplementedError msg.

Definition overview_entry (f : parquet_file) : overview_info :=
  {| ov_file_path := file_path f;
     ov_created_by := created_by f;
     ov_num_rows := num_rows f;
     ov_num_columns := num_columns f;
     ov_num_row_groups := Z.of_nat (length (row_groups f)) |}.

End ParquetExpected.

(* ===================================================================== *)
(** * Properties *)
(* ===================================================================== *)

(** ** Facts about the string built-ins *)
Module PyFacts.
Import Py.

Lemma str_eqb_refl (a : str) : str_eqb a a = true.
Proof.
  induction a as [|x a IH]; simpl; [reflexivity|].
  rewrite N.eqb_refl. exact IH.
Qed.

Lemma str_eqb_eq (a b : str) : str_eqb a b = true <-> a = b.
Proof.
  split.
  - revert b. induction a as [|x a IH]; intros [|y b] H; simpl in H;
      try discriminate; [reflexivity|].
    apply andb_prop in H as [Hxy Hab].
    apply N.eqb_eq in Hxy. subst y. f_equal. apply IH, Hab.
  - intros ->. apply str_eqb_refl.
Qed.

Lemma str_eqb_neq (a b : str) : str_eqb a b = false <-> a <> b.
Proof.
  split.
  - intros H E. apply str_eqb_eq in E. congruence.
  - intros H. destruct (str_eqb a b) eqn:E; [|reflexivity].
    apply str_eqb_eq in E. contradiction.
Qed.

Lemma startswith_app (p r : str) : startswith (p ++ r) p = true.
Proof.
  induction p as [|x p IH]; simpl; [reflexivity|].
  rewrite N.eqb_refl. exact IH.
Qed.

Lemma startswith_split (s p : str) :
  startswith s p = true -> s = p ++ skipn (length p) s.
Proof.
  revert s. induction p as [|x p IH]; intros s H; simpl in *; [reflexivity|].
  destruct s as [|y s]; [discriminate|].
  apply andb_prop in H as [Hxy Hs]. apply N.eqb_eq in Hxy. subst y.
  simpl. f_equal. apply IH, Hs.
Qed.

Lemma startswith_iff (s p : str) :
  startswith s p = true <-> exists r, s = p ++ r.
Proof.
  split.
  - intros H. eexists. apply startswith_split, H.
  - intros [r ->]. apply startswith_app.
Qed.

Lemma startswith_cons (x y : char) (s p : str) :
  startswith (y :: s) (x :: p) = N.eqb x y && startswith s p.
Proof. reflexivity. Qed.

(** A pattern no longer than [a] only looks at [a]. *)
Lemma startswith_app_long (a b p : str) :
  length p <= length a -> startswith (a ++ b) p = startswith a p.
Proof.
  revert a. induction p as [|x p IH]; intros a H; simpl.
  - destruct (a ++ b), a; reflexivity.
  - destruct a as [|y a]; simpl in *; [lia|].
    rewrite IH by lia. reflexivity.
Qed.

Lemma startswith_length (s p : str) :
  startswith s p = true -> length p <= length s.
Proof.
  intros H. apply startswith_split in H.
  rewrite H, length_app. lia.
Qed.

Lemma contains_cons (sub : str) (c : char) (r : str) :
  contains sub (c :: r) = startswith (c :: r) sub || contains sub r.
Proof. reflexivity. Qed.

Lemma contains_occurrence (sub s : str) :
  contains sub s = true ->
  exists i, i + length sub <= length s /\ startswith (skipn i s) sub = true.
Proof.
  induction s as [|c r IH]; simpl; intros H.
  - rewrite orb_false_r in H. exists 0. split; [|exact H].
    apply startswith_length in H. simpl in *. lia.
  - apply orb_prop in H as [H|H].
    + exists 0. split; [|exact H]. apply startswith_length in H. simpl in *. lia.
    + destruct (IH H) as [i [Hi Hs]]. exists (S i). split; [simpl; lia | exact Hs].
Qed.

Lemma occurrence_contains (sub s : str) (i : nat) :
  startswith (skipn i s) sub = true -> contains sub s = true.
Proof.
  revert i. induction s as [|c r IH]; intros i H.
  - rewrite skipn_nil in H. simpl. rewrite H. reflexivity.
  - destruct i as [|i]; simpl in H.
    + simpl. simpl in H. rewrite H. reflexivity.
    + change (contains sub (c :: r))
        with (startswith (c :: r) sub || contains sub r).
      rewrite (IH i H). apply orb_true_r.
Qed.

Lemma endswith_iff (s p : str) :
  endswith s p = true <-> exists pre, s = pre ++ p.
Proof.
  unfold endswith. rewrite startswith_iff. split.
  - intros [r H]. exists (rev r).
    rewrite <- (rev_involutive s), H, rev_app_distr, rev_involutive. reflexivity.
  - intros [pre ->]. exists (rev pre). apply rev_app_distr.
Qed.

Lemma endswith_cons (c : char) (s p : str) :
  endswith s p = true -> endswith (c :: s) p = true.
Proof.
  rewrite !endswith_iff. intros [pre ->]. exists (c :: pre). reflexivity.
Qed.

Lemma contains_app_l (sub a b : str) :
  contains sub a = true -> contains sub (a ++ b) = true.
Proof.
  intros H. apply contains_occurrence in H as [i [Hi Hs]].
  apply (occurrence_contains sub (a ++ b) i).
  rewrite drop_app_le by lia.
  rewrite startswith_app_long; [exact Hs|].
  rewrite length_skipn. lia.
Qed.

End PyFacts.

(** ** The resolver *)
Module ResolverFacts.
Import Py PyFacts Resolver ResolverExample.

(** The loop test is exactly "equal, or followed by a [/] boundary". *)
Lemma stage_matches_iff (ev url : str) :
  stage_matches ev url = true <->
  ev = url \/ exists rest, ev = url ++ lit "/" ++ rest.
Proof.
  unfold stage_matches. rewrite orb_true_iff, str_eqb_eq, startswith_iff.
  split; (intros [H|[rest H]]; [left; exact H | right; exists rest]).
  - rewrite H, <- app_assoc. reflexivity.
  - rewrite H, <- app_assoc. reflexivity.
Qed.

Lemma find_stage_some (stage_df : list stage_row) (ev : str) (row : stage_row) :
  find_stage stage_df ev = Some row ->
  In row stage_df /\ stage_matches ev (clean_path (STAGE_URL row)) = true.
Proof.
  induction stage_df as [|r rest IH]; simpl; [discriminate|].
  destruct (stage_matches ev (clean_path (STAGE_URL r))) eqn:E.
  - intros [= <-]. split; [left; reflexivity | exact E].
  - intros H. destruct (IH H) as [Hin Hm]. split; [right; exact Hin | exact Hm].
Qed.

(** Rows before the selected one did not pass the test. *)
Lemma find_stage_first (stage_df : list stage_row) (ev : str) :
  find_stage stage_df ev = None <->
  Forall (fun r => stage_matches ev (clean_path (STAGE_URL r)) = false) stage_df.
Proof.
  induction stage_df as [|r rest IH]; simpl.
  - split; [constructor | reflexivity].
  - destruct (stage_matches ev (clean_path (STAGE_URL r))) eqn:E.
    + split; [discriminate | intros H; inversion H; congruence].
    + rewrite IH. split; [intros H; constructor; assumption
                         | intros H; inversion H; assumption].
Qed.

Example relative_from_ev_nested :
  relative_from_ev (lit "s3://bucket/a/b") (lit "s3://bucket/a") = lit "b".
Proof. reflexivity. Qed.

Lemma relative_from_ev_same (url : str) : relative_from_ev url url = [].
Proof. unfold relative_from_ev. rewrite str_eqb_refl. reflexivity. Qed.

Lemma app_neq_self (url extra : str) : extra <> [] -> url ++ extra <> url.
Proof.
  intros Hne E. apply (f_equal (@length N)) in E.
  rewrite length_app in E. destruct extra; [contradiction|simpl in E; lia].
Qed.

Lemma relative_from_ev_below (url rest : str) :
  relative_from_ev (url ++ lit "/" ++ rest) url = rest.
Proof.
  unfold relative_from_ev.
  assert (Hne : str_eqb (url ++ lit "/" ++ rest) url = false).
  { apply str_eqb_neq, app_neq_self. discriminate. }
  rewrite Hne, app_assoc, startswith_app.
  unfold slice_from.
  replace (length url + 1) with (length (url ++ lit "/"))
    by (rewrite length_app; reflexivity).
  apply drop_app_length.
Qed.

(** C2.  Whenever the selected stage URL matches the external-volume path,
    [relative_from_ev] is what is left of the path after the stage URL and
    one [/]; it is empty when the two are equal. *)
Theorem relative_from_ev_is_remainder (ev_s3_path stage_url : str) :
  stage_matches ev_s3_path stage_url = true ->
  (ev_s3_path = stage_url /\ relative_from_ev ev_s3_path stage_url = [])
  \/ (ev_s3_path <> stage_url
      /\ ev_s3_path
         = stage_url ++ lit "/" ++ relative_from_ev ev_s3_path stage_url).
Proof.
  intros H. apply stage_matches_iff in H as [->|[rest ->]].
  - left. split; [reflexivity | apply relative_from_ev_same].
  - right. rewrite relative_from_ev_below. split; [|reflexivity].
    apply app_neq_self. discriminate.
Qed.

(** The older script answers [a], not the empty string, when the path is the
    stage URL itself. *)
Example legacy_relative_from_stage_same :
  Legacy.relative_from_stage (lit "s3://bucket/a") (lit "s3://bucket/a") = lit "a"
  /\ Legacy.relative_from_stage (lit "s3://bucket/a/b") (lit "s3://bucket/a")
     = lit "b".
Proof. split; reflexivity. Qed.

(** The end-to-end example: volume root [store://bkt/vol1], one stage rooted
    at [store://bkt], [BASE_LOCATION='/db/t1/']. *)
Example resolve_end_to_end :
  resolve_stage [m1] (clean_path (lit "store://bkt/vol1"))
  = Some (lit "DB.PUBLIC.M1", lit "store://bkt")
  /\ relative_from_ev (lit "store://bkt/vol1") (lit "store://bkt") = lit "vol1"
  /\ relative_prefix (lit "vol1") (Some (clean_path (lit "/db/t1/")))
     = lit "vol1/db/t1"
  /\ ls_pattern (lit "vol1/db/t1") = lit "^vol1/db/t1.*".
Proof. repeat split. Qed.

Lemma relative_from_ev_is_remainder_witness :
  relative_from_ev (lit "s3://bucket/a/b") (lit "s3://bucket/a") = lit "b"
  /\ ((lit "s3://bucket/a/b" = lit "s3://bucket/a"
       /\ relative_from_ev (lit "s3://bucket/a/b") (lit "s3://bucket/a") = [])
      \/ (lit "s3://bucket/a/b" <> lit "s3://bucket/a"
          /\ lit "s3://bucket/a/b"
             = lit "s3://bucket/a" ++ lit "/"
               ++ relative_from_ev (lit "s3://bucket/a/b") (lit "s3://bucket/a"))).
Proof.
  split; [reflexivity|].
  apply (relative_from_ev_is_remainder (lit "s3://bucket/a/b") (lit "s3://bucket/a")).
  reflexivity.
Defined.

(** C3.  The row at which the loop stops is a row of the table whose cleaned
    URL equals the external-volume path or is followed in it by a [/]; a
    stage rooted at [s3://bucket/mount-1] is therefore never the one selected
    for [s3://bucket/mount-10/x]. *)
Theorem find_stage_needs_path_boundary
    (stage_df : list stage_row) (ev_s3_path : str) (row : stage_row) :
  find_stage stage_df ev_s3_path = Some row ->
  In row stage_df
  /\ (ev_s3_path = clean_path (STAGE_URL row)
      \/ exists rest, ev_s3_path = clean_path (STAGE_URL row) ++ lit "/" ++ rest)
  /\ (ev_s3_path = lit "s3://bucket/mount-10/x" ->
      STAGE_URL row <> lit "s3://bucket/mount-1"
      /\ clean_path (STAGE_URL row) <> lit "s3://bucket/mount-1").
Proof.
  intros H. apply find_stage_some in H as [Hin Hm].
  split; [exact Hin|]. split; [apply stage_matches_iff, Hm|].
  intros ->. split; intros E; rewrite E in Hm; vm_compute in Hm; discriminate.
Qed.

Lemma find_stage_needs_path_boundary_witness :
  find_stage [mount_1; mount_10] (lit "s3://bucket/mount-10/x") = Some mount_10
  /\ In mount_10 [mount_1; mount_10]
  /\ (lit "s3://bucket/mount-10/x" = clean_path (STAGE_URL mount_10)
      \/ exists rest,
           lit "s3://bucket/mount-10/x"
           = clean_path (STAGE_URL mount_10) ++ lit "/" ++ rest).
Proof.
  split; [reflexivity|].
  pose proof (find_stage_needs_path_boundary [mount_1; mount_10]
                (lit "s3://bucket/mount-10/x") mount_10 eq_refl) as [Hin [Hb _]].
  split; assumption.
Defined.

End ResolverFacts.

(** ** Labels *)
Module ListerFacts.
Import Py PyFacts Lister ListerExample.

Lemma before_first_cons (sep : str) (c : char) (r : str) :
  before_first sep (c :: r)
  = if startswith (c :: r) sep then [] else c :: before_first sep r.
Proof. reflexivity. Qed.

Lemma split_go_cons (sep cur : str) (c : char) (r : str) :
  split_go sep 0 cur (c :: r)
  = if startswith (c :: r) sep
    then rev cur :: split_go sep (length sep - 1) [] r
    else split_go sep 0 (c :: cur) r.
Proof. reflexivity. Qed.

(** The first piece of a split is the text before the first separator. *)
Lemma split_go_first (sep cur s : str) :
  first_item (split_go sep 0 cur s) = rev cur ++ before_first sep s.
Proof.
  revert cur. induction s as [|c r IH]; intros cur.
  - simpl. rewrite app_nil_r. reflexivity.
  - rewrite split_go_cons, before_first_cons.
    destruct (startswith (c :: r) sep).
    + simpl. rewrite app_nil_r. reflexivity.
    + rewrite IH. simpl. rewrite <- app_assoc. reflexivity.
Qed.

Lemma split_first (sep s : str) :
  first_item (split sep s) = before_first sep s.
Proof. unfold split. rewrite split_go_first. reflexivity. Qed.

(** An occurrence of [sep] at offset [i] bounds the first piece. *)
Lemma before_first_occurrence (sep s : str) (i : nat) :
  startswith (skipn i s) sep = true ->
  i <= length s ->
  length (before_first sep s) <= i.
Proof.
  revert i. induction s as [|c r IH]; intros i H Hi; [simpl; lia|].
  rewrite before_first_cons.
  destruct (startswith (c :: r) sep) eqn:E; [simpl; lia|].
  destruct i as [|i]; [simpl in H; congruence|].
  simpl in *. specialize (IH i H). lia.
Qed.

(** No occurrence of the separator starts inside a name that neither
    contains it nor ends with its first two characters. *)
Lemma before_first_label (name rest : str) :
  contains (lit " | ") name = false ->
  endswith name (lit " |") = false ->
  before_first (lit " | ") (name ++ lit " | " ++ rest) = name.
Proof.
  induction name as [|c n IH]; intros Hc He; [reflexivity|].
  rewrite contains_cons in Hc. apply orb_false_elim in Hc as [Hs Hc].
  assert (He' : endswith n (lit " |") = false).
  { destruct (endswith n (lit " |")) eqn:E; [|reflexivity].
    apply (endswith_cons c) in E. congruence. }
  change ((c :: n) ++ lit " | " ++ rest) with (c :: (n ++ lit " | " ++ rest)).
  rewrite before_first_cons, (IH Hc He').
  assert (Hno : startswith (c :: n ++ lit " | " ++ rest) (lit " | ") = false).
  { destruct n as [|d [|e n']].
    - change (lit " | ") with [32; 124; 32]%N.
      change (c :: [] ++ [32; 124; 32]%N ++ rest)
        with (c :: 32%N :: 124%N :: 32%N :: rest).
      rewrite !startswith_cons. apply andb_false_iff. right. reflexivity.
    - destruct (startswith ([c; d] ++ lit " | " ++ rest) (lit " | ")) eqn:E;
        [|exact E].
      change (lit " | ") with [32; 124; 32]%N in E.
      change ([c; d] ++ [32; 124; 32]%N ++ rest)
        with (c :: d :: 32%N :: 124%N :: 32%N :: rest) in E.
      rewrite !startswith_cons in E.
      apply andb_prop in E as [E1 E2]. apply andb_prop in E2 as [E2 _].
      apply N.eqb_eq in E1, E2. subst c d. discriminate He.
    - change (c :: (d :: e :: n') ++ lit " | " ++ rest)
        with ((c :: d :: e :: n') ++ lit " | " ++ rest).
      rewrite startswith_app_long; [exact Hs | simpl; lia]. }
  rewrite Hno. reflexivity.
Qed.

(** C10 (as the code behaves).  Splitting the label [NAME | LAST_MODIFIED]
    on [" | "] gives back [NAME] exactly when [NAME] neither contains [" | "]
    nor ends with [" |"]. *)
Theorem selected_name_round_trip (e : object_entry) :
  selected_name (make_label e) = NAME e <->
  contains (lit " | ") (NAME e) = false /\ endswith (NAME e) (lit " |") = false.
Proof.
  unfold selected_name, make_label. rewrite split_first.
  split.
  - intros H.
    assert (Hlen : forall i, i < length (NAME e) ->
              startswith (skipn i (NAME e ++ lit " | " ++ LAST_MODIFIED e))
                         (lit " | ") = true -> False).
    { intros i Hi Hs. apply before_first_occurrence in Hs.
      - rewrite H in Hs. lia.
      - rewrite length_app. lia. }
    split.
    + destruct (contains (lit " | ") (NAME e)) eqn:E; [exfalso|reflexivity].
      apply contains_occurrence in E as [i [Hi Hs]]. simpl in Hi.
      apply (Hlen i); [lia|].
      rewrite drop_app_le by lia.
      rewrite startswith_app_long; [exact Hs|].
      rewrite length_skipn. simpl. lia.
    + destruct (endswith (NAME e) (lit " |")) eqn:E; [exfalso|reflexivity].
      apply endswith_iff in E as [pre E].
      apply (Hlen (length pre)); [rewrite E, length_app; simpl; lia|].
      rewrite E, <- app_assoc, drop_app_length. reflexivity.
  - intros [Hc He]. apply before_first_label; assumption.
Qed.

Lemma selected_name_round_trip_witness :
  selected_name (make_label plain_object) = NAME plain_object.
Proof.
  apply (proj2 (selected_name_round_trip plain_object)).
  split; reflexivity.
Defined.

(** A name without [" | "] whose label does not split back to it. *)
Lemma label_round_trip_fails_on_trailing_bar :
  contains (lit " | ") (NAME trailing_bar_object) = false
  /\ selected_name (make_label trailing_bar_object) = lit "db/t1/x"
  /\ selected_name (make_label trailing_bar_object) <> NAME trailing_bar_object.
Proof. repeat split. discriminate. Qed.

(** Checksum and index side-files are not offered for selection. *)
Example keep_data_files_drops_crc :
  keep_data_files [plain_object; checksum_object] = [plain_object].
Proof. reflexivity. Qed.

End ListerFacts.

(** ** The listing pattern *)
Module PatternFacts.
Import Py PyFacts Resolver Regex.

Lemma ls_pattern_nonempty (c : char) (p : str) :
  ls_pattern (c :: p) = lit "^" ++ (c :: p) ++ lit ".*".
Proof. reflexivity. Qed.

Lemma ls_pattern_empty : ls_pattern [] = lit ".*".
Proof. reflexivity. Qed.

(** With an empty prefix every key is listed. *)
Lemma ls_pattern_empty_accepts_all (key : str) :
  accepts (ls_pattern []) key = Some true.
Proof. destruct key; reflexivity. Qed.

Lemma char_in_true (c : char) (cs : str) : char_in c cs = true <-> In c cs.
Proof.
  unfold char_in. rewrite existsb_exists. split.
  - intros [x [Hin Hx]]. apply N.eqb_eq in Hx. subst x. exact Hin.
  - intros H. exists c. split; [exact H | apply N.eqb_refl].
Qed.

Lemma unescaped_is_plain (c : char) :
  char_in c re_special = false ->
  (c =? 92)%N = false /\ (c =? 46)%N = false /\ (c =? 42)%N = false
  /\ is_meta c = false.
Proof.
  intros H.
  assert (Hx : forall x, char_in x re_special = true -> (c =? x)%N = false).
  { intros x Hin. destruct (c =? x)%N eqn:E; [|reflexivity].
    apply N.eqb_eq in E. subst x. congruence. }
  repeat split; try (apply Hx; reflexivity).
  unfold is_meta. destruct (char_in c (lit "()[]{}?+|^$*")) eqn:E; [|reflexivity].
  assert (Hsub : forallb (fun x => char_in x re_special) (lit "()[]{}?+|^$*") = true)
    by reflexivity.
  rewrite forallb_forall in Hsub. apply char_in_true in E.
  apply Hsub in E. congruence.
Qed.

Lemma special_is_escapable (c : char) :
  char_in c re_special = true -> escapable c = true.
Proof.
  intros H.
  assert (Hall : forallb escapable re_special = true) by reflexivity.
  rewrite forallb_forall in Hall. apply Hall, char_in_true, H.
Qed.

Lemma re_escape_cons (c : char) (p : str) :
  re_escape (c :: p)
  = (if char_in c re_special then [92%N; c] else [c]) ++ re_escape p.
Proof. reflexivity. Qed.

(** What follows an escaped prefix never starts with a star. *)
Lemma starred_after_escape (p : str) :
  starred (re_escape p ++ lit ".*") = (false, re_escape p ++ lit ".*").
Proof.
  destruct p as [|d p]; [reflexivity|]. rewrite re_escape_cons.
  destruct (char_in d re_special) eqn:E; [reflexivity|].
  apply unescaped_is_plain in E as (_ & _ & E & _).
  change (([d] ++ re_escape p) ++ lit ".*") with (d :: (re_escape p ++ lit ".*")).
  unfold starred. rewrite E. reflexivity.
Qed.

Lemma parse_items_escaped (p : str) (fuel : nat) :
  length (re_escape p) + 2 <= fuel ->
  parse_items fuel (re_escape p ++ lit ".*")
  = Some (map (fun c => (Lit c, false)) p ++ [(AnyChar, true)]).
Proof.
  revert fuel. induction p as [|c p IH]; intros fuel Hf.
  - destruct fuel as [|[|fuel]]; simpl in Hf; try lia. reflexivity.
  - destruct fuel as [|fuel]; [simpl in Hf; lia|].
    rewrite re_escape_cons in *.
    destruct (char_in c re_special) eqn:E.
    + change (([92%N; c] ++ re_escape p) ++ lit ".*")
        with (92%N :: c :: (re_escape p ++ lit ".*")).
      cbn [parse_items].
      rewrite N.eqb_refl, (special_is_escapable c E), starred_after_escape, IH.
      * reflexivity.
      * rewrite length_app in Hf. simpl in Hf. lia.
    + apply unescaped_is_plain in E as (E1 & E2 & _ & E4).
      change (([c] ++ re_escape p) ++ lit ".*")
        with (c :: (re_escape p ++ lit ".*")).
      cbn [parse_items]. rewrite E1, E2, E4, starred_after_escape, IH.
      * reflexivity.
      * rewrite length_app in Hf. simpl in Hf. lia.
Qed.

Lemma match_literal_prefix (p key : str) :
  match_items (map (fun c => (Lit c, false)) p ++ [(AnyChar, true)]) key
  = startswith key p.
Proof.
  revert key. induction p as [|c p IH]; intros key.
  - destruct key; reflexivity.
  - destruct key as [|d key]; [reflexivity|].
    simpl. rewrite IH. reflexivity.
Qed.

(** The pattern built from the escaped prefix lists exactly the keys that
    begin with the prefix. *)
Lemma escaped_pattern_accepts (p key : str) :
  accepts (escaped_pattern p) key = Some (startswith key p).
Proof.
  unfold accepts, escaped_pattern.
  change (lit "^" ++ re_escape p ++ lit ".*")
    with (94%N :: (re_escape p ++ lit ".*")).
  cbn [parse]. rewrite N.eqb_refl, parse_items_escaped.
  - simpl. rewrite match_literal_prefix. reflexivity.
  - rewrite length_app. simpl. lia.
Qed.

(** C1 fails on the code.  For the prefix [db/t.1] the pattern is built from
    the raw prefix, not from its escaped form: its dot stands for any
    character, so the key [db/tX1/part-0.parquet], which does not begin with
    the prefix, is listed; the escaped form would reject it. *)
Theorem ls_pattern_ignores_escaped :
  ls_pattern (lit "db/t.1") = lit "^db/t.1.*"
  /\ escaped_pattern (lit "db/t.1") = lit "^db/t\.1.*"
  /\ startswith (lit "db/tX1/part-0.parquet") (lit "db/t.1") = false
  /\ accepts (ls_pattern (lit "db/t.1")) (lit "db/tX1/part-0.parquet") = Some true
  /\ accepts (escaped_pattern (lit "db/t.1")) (lit "db/tX1/part-0.parquet")
     = Some false.
Proof. repeat split. Qed.

End PatternFacts.

(** ** The loose record extractor *)
Module ExtractorFacts.
Import Json Exc Extractor.

Section WithParser.
Variable json_loads : str -> parsed.

(** The loop appends one record per non-blank line, in order. *)
Lemma parse_lines_appends (lines : list str) (records : list value) :
  parse_lines json_loads records lines
  = records
    ++ map (line_record json_loads)
         (List.filter Resolver.truthy (map Py.strip_ws lines)).
Proof.
  revert records. induction lines as [|line rest IH]; intros records; simpl.
  - rewrite app_nil_r. reflexivity.
  - destruct (Resolver.truthy (Py.strip_ws line)) eqn:E; simpl.
    + unfold line_record at 1.
      destruct (json_loads (Py.strip_ws line)); rewrite IH, <- app_assoc;
        reflexivity.
    + apply IH.
Qed.

Lemma extract_records_fallback (text : str) :
  json_loads text = JSONDecodeError ->
  extract_records json_loads text
  = Ret (map (line_record json_loads) (nonblank_lines text)).
Proof.
  intros H. unfold extract_records. rewrite H. f_equal.
  apply (parse_lines_appends (file_lines text) []).
Qed.

(** C4 (as the code behaves).  When the whole-file parse returns, a list
    gives its elements and any other value a single record.  When it raises
    [JSONDecodeError] there is exactly one record per non-blank line, in
    file order, and a line whose parse does not return is kept as
    [{"raw_line": line}]; the three-line file [{"a":1}], [{"b":2}],
    [not-json] gives three records, the third holding the raw text.  When
    the whole-file parse raises anything else, or the read itself raises,
    the block raises and no record is extracted. *)
Theorem extract_records_keeps_every_line (text : str) :
  (forall items, json_loads text = Value (JList items) ->
     extract_records json_loads text = Ret items)
  /\ (forall obj, json_loads text = Value obj ->
        (forall items, obj <> JList items) ->
        extract_records json_loads text = Ret [obj])
  /\ (json_loads text = JSONDecodeError ->
        exists records,
          extract_records json_loads text = Ret records
          /\ records = map (line_record json_loads) (nonblank_lines text)
          /\ length records = length (nonblank_lines text)
          /\ forall line, In line (nonblank_lines text) ->
               (forall v, json_loads line <> Value v) ->
               In (raw_line_record line) records)
  /\ (forall e, json_loads text = OtherException e ->
        extract_records json_loads text = Raise e)
  /\ read_and_extract json_loads (Ret text) = extract_records json_loads text
  /\ (forall e, read_and_extract json_loads (Raise e) = Raise e)
  /\ (forall va vb,
        json_loads JsonReader.ndjson_example = JSONDecodeError ->
        json_loads JsonReader.obj_a = Value va ->
        json_loads JsonReader.obj_b = Value vb ->
        json_loads (lit "not-json") = JSONDecodeError ->
        extract_records json_loads JsonReader.ndjson_example
        = Ret [va; vb; JDict [(lit "raw_line", JStr (lit "not-json"))]]).
Proof.
  split; [|split; [|split; [|split; [|split; [|split]]]]].
  - intros items H. unfold extract_records. rewrite H. reflexivity.
  - intros obj H Hn. unfold extract_records. rewrite H.
    destruct obj; try reflexivity. exfalso. eapply Hn. reflexivity.
  - intros H. eexists. split; [apply extract_records_fallback, H|].
    split; [reflexivity|]. split; [apply length_map|].
    intros line Hin Hl. apply in_map_iff. exists line. split; [|exact Hin].
    unfold line_record. destruct (json_loads line) as [v| |e] eqn:E;
      [exfalso; apply (Hl v); reflexivity | reflexivity | reflexivity].
  - intros e H. unfold extract_records. rewrite H. reflexivity.
  - reflexivity.
  - reflexivity.
  - intros va vb H Ha Hb Hc. rewrite (extract_records_fallback _ H).
    change (nonblank_lines JsonReader.ndjson_example)
      with [JsonReader.obj_a; JsonReader.obj_b; lit "not-json"].
    unfold line_record. simpl map. rewrite Ha, Hb, Hc. reflexivity.
Qed.

(** The viewer appends to the list it is given when the whole-file parse
    fails, so the caller's list then holds every line twice. *)
Lemma records_for_summary_fallback (text : str) :
  json_loads text = JSONDecodeError ->
  records_for_summary json_loads text
  = Ret (map (line_record json_loads) (nonblank_lines text)
         ++ map (line_record json_loads) (nonblank_lines text)).
Proof.
  intros H. unfold records_for_summary.
  rewrite (extract_records_fallback _ H). simpl.
  unfold render_json_avro_view. rewrite H, parse_lines_appends. reflexivity.
Qed.

(** The older script yields no record at all once the whole-file parse
    fails. *)
Lemma legacy_extract_records_fallback (text : str) :
  json_loads text = JSONDecodeError ->
  Legacy.extract_records json_loads text = Ret [].
Proof. intros H. unfold Legacy.extract_records. rewrite H. reflexivity. Qed.

End WithParser.

Lemma extract_records_keeps_every_line_witness :
  extract_records JsonReader.loads JsonReader.ndjson_example
  = Ret [JDict [(lit "a", JNum (lit "1"))]; JDict [(lit "b", JNum (lit "2"))];
         JDict [(lit "raw_line", JStr (lit "not-json"))]].
Proof.
  apply (proj2 (proj2 (proj2 (proj2 (proj2 (proj2
           (extract_records_keeps_every_line JsonReader.loads
              JsonReader.ndjson_example)))))));
    reflexivity.
Defined.

(** C4 as it was stated fails on a file that is not UTF-8 text: the read
    inside the whole-file parse raises [UnicodeDecodeError], which the
    [except json.JSONDecodeError] does not take, and the block is left with
    no record, although the file has a non-blank line. *)
Lemma extract_records_stops_on_undecodable_file :
  read_and_extract JsonReader.loads ExtractorExample.undecodable_file
  = Raise
      (OtherError (lit "UnicodeDecodeError")
         (lit "'utf-8' codec can't decode byte 0xff in position 0: invalid start byte"))
  /\ forall records,
       read_and_extract JsonReader.loads ExtractorExample.undecodable_file
       <> Ret records.
Proof. split; [reflexivity | discriminate]. Qed.

Example extract_records_single_object :
  extract_records JsonReader.loads JsonReader.obj_a
  = Ret [JDict [(lit "a", JNum (lit "1"))]].
Proof. reflexivity. Qed.

Example extract_records_array :
  extract_records JsonReader.loads JsonReader.array_example
  = Ret [JDict [(lit "a", JNum (lit "1"))]; JDict [(lit "a", JNum (lit "2"))]].
Proof. reflexivity. Qed.

End ExtractorFacts.

(** ** The Avro reading loop *)
Module AvroFacts.
Import Exc Avro.

Section WithReader.
Variables (record reader : Type).
Variable next : reader -> step record reader.

Lemma first_records_length (n : nat) (rd : reader) :
  length (first_records next n rd) <= n.
Proof.
  revert rd. induction n as [|n IH]; intros rd; simpl; [lia|].
  destruct (next rd); simpl; [specialize (IH rest)|..]; lia.
Qed.



End WithReader.


Example read_records_short_file :
  read_records from_list 4 [lit "r1"; lit "r2"; lit "r3"]
  = Some (Ret [lit "r1"; lit "r2"; lit "r3"]).
Proof. reflexivity. Qed.

End AvroFacts.

(** ** The Parquet statistics loop *)
Module ParquetFacts.
Import Exc Parquet.

Lemma for_each_all_return {A B : Type} (f : A -> outcome B) (g : A -> B)
    (xs : list A) :
  (forall x, In x xs -> f x = Ret (g x)) ->
  for_each f xs = Ret (map g xs).
Proof.
  induction xs as [|x rest IH]; intros H; simpl; [reflexivity|].
  rewrite (H x) by (left; reflexivity). simpl.
  rewrite IH by (intros y Hy; apply H; right; exact Hy). reflexivity.
Qed.

Lemma for_each_raise {A B : Type} (f : A -> outcome B) (xs : list A) (e : exn) :
  for_each f xs = Raise e -> exists x, In x xs /\ f x = Raise e.
Proof.
  induction xs as [|x rest IH]; simpl; [discriminate|].
  destruct (f x) as [y|e'] eqn:Hx; simpl.
  - destruct (for_each f rest) as [ys|e'']; simpl; [discriminate|].
    intros [= ->]. destruct (IH eq_refl) as [z [Hin Hz]].
    exists z. split; [right; exact Hin | exact Hz].
  - intros [= ->]. exists x. split; [left; reflexivity | exact Hx].
Qed.

(** A column fails only with an exception that is not "not implemented". *)
Lemma column_info_raise (col : column_chunk) (e : exn) :
  column_info col = Raise e ->
  read_statistics col = Raise e /\ is_not_implemented e = false.
Proof.
  unfold column_info. destruct (read_statistics col) as [s|e']; simpl;
    [discriminate|].
  destruct (is_not_implemented e') eqn:E; [discriminate|].
  intros [= ->]. split; [reflexivity | exact E].
Qed.

Lemma column_info_absent (col : column_chunk) (e : exn) :
  read_statistics col = Raise e ->
  is_not_implemented e = true ->
  column_info col = Ret (with_statistics col None).
Proof.
  intros H E. unfold column_info. rewrite H. simpl. rewrite E. reflexivity.
Qed.

Lemma column_info_tolerant (col : column_chunk) :
  (forall e, read_statistics col = Raise e -> is_not_implemented e = true) ->
  column_info col = Ret (tolerant_column_info col).
Proof.
  intros H. unfold column_info, tolerant_column_info.
  destruct (read_statistics col) as [s|e]; simpl; [reflexivity|].
  rewrite (H e eq_refl). reflexivity.
Qed.

(** Reading the statistics raises the first exception met, and returns the
    five values otherwise. *)
Lemma read_statistics_entry (col : column_chunk) :
  read_statistics col
  = match ParquetExpected.first_raise col with
    | Some e => Raise e
    | None => Ret (ParquetExpected.statistics_entry col)
    end.
Proof.
  unfold read_statistics, ParquetExpected.first_raise,
    ParquetExpected.statistics_entry.
  destruct (col_statistics col) as [[st|]|e]; simpl; try reflexivity.
  destruct (null_count st), (distinct_count st), (min st), (max st),
    (num_values st); reflexivity.
Qed.

Lemma first_raise_no_entry (col : column_chunk) (e : exn) :
  ParquetExpected.first_raise col = Some e ->
  ParquetExpected.statistics_entry col = None.
Proof.
  unfold ParquetExpected.first_raise, ParquetExpected.statistics_entry.
  destruct (col_statistics col) as [[st|]|e']; try reflexivity.
  destruct (null_count st), (distinct_count st), (min st), (max st),
    (num_values st); try reflexivity.
  discriminate.
Qed.

Lemma tolerant_column_entry (col : column_chunk) :
  tolerant_column_info col = ParquetExpected.column_entry col.
Proof.
  unfold tolerant_column_info, with_statistics, ParquetExpected.column_entry.
  rewrite read_statistics_entry.
  destruct (ParquetExpected.first_raise col) as [e|] eqn:E; [|reflexivity].
  rewrite (first_raise_no_entry col e E). reflexivity.
Qed.

Lemma tolerant_row_group_entry (rg : row_group) :
  tolerant_row_group_info rg = ParquetExpected.row_group_entry rg.
Proof.
  unfold tolerant_row_group_info, ParquetExpected.row_group_entry. f_equal.
  apply map_ext. exact tolerant_column_entry.
Qed.

Lemma is_not_implemented_iff (e : exn) :
  is_not_implemented e = true <-> ParquetExpected.not_implemented e.
Proof.
  unfold ParquetExpected.not_implemented. split.
  - destruct e; try discriminate; intros _; eexists; [left | right]; reflexivity.
  - intros [msg [-> | ->]]; reflexivity.
Qed.

(** C5.  A column whose statistics raise "not implemented" is recorded with
    its path, physical type, compression and encodings and with
    [statistics = None]; that exception never leaves the function; and when
    nothing else is raised the function returns the overview, the schema,
    the key-value pairs and, for every row group, its size and every column
    with its four descriptive fields and its statistics: the five values
    where all are readable, [None] elsewhere. *)
Theorem show_parquet_metadata_absorbs_not_implemented (f : parquet_file) :
  (forall col e,
     ParquetExpected.first_raise col = Some e ->
     ParquetExpected.not_implemented e ->
     column_info col
     = Ret {| ci_path_in_schema := path_in_schema col;
              ci_physical_type := physical_type col;
              ci_compression := compression col;
              ci_encodings := encodings col;
              ci_statistics := None |})
  /\ (forall e, show_parquet_metadata f = Raise e ->
        ~ ParquetExpected.not_implemented e)
  /\ ((forall rg col e,
         In rg (row_groups f) -> In col (rg_columns rg) ->
         ParquetExpected.first_raise col = Some e ->
         ParquetExpected.not_implemented e) ->
      show_parquet_metadata f
      = Ret {| overview :=
                 {| ov_file_path := file_path f;
                    ov_created_by := created_by f;
                    ov_num_rows := num_rows f;
                    ov_num_columns := num_columns f;
                    ov_num_row_groups := Z.of_nat (length (row_groups f)) |};
               schema_df := schema_arrow f;
               kv := kv_metadata f;
               md_row_groups :=
                 map (fun rg =>
                        {| ri_num_rows := rg_num_rows rg;
                           ri_total_byte_size := rg_total_byte_size rg;
                           ri_columns :=
                             map (fun col =>
                                    {| ci_path_in_schema := path_in_schema col;
                                       ci_physical_type := physical_type col;
                                       ci_compression := compression col;
                                       ci_encodings := encodings col;
                                       ci_statistics :=
                                         ParquetExpected.statistics_entry col |})
                               (rg_columns rg) |})
                   (row_groups f) |}).
Proof.
  split; [|split].
  - intros col e He Hni. apply is_not_implemented_iff in Hni.
    rewrite (column_info_absent col e); [reflexivity| |exact Hni].
    rewrite read_statistics_entry, He. reflexivity.
  - intros e H Hni. apply is_not_implemented_iff in Hni.
    assert (Hno : is_not_implemented e = false); [|congruence].
    unfold show_parquet_metadata in H.
    destruct (for_each row_group_info (row_groups f)) as [rgs|e'] eqn:E;
      simpl in H; [discriminate|].
    injection H as ->.
    apply for_each_raise in E as [rg [_ Hrg]].
    unfold row_group_info in Hrg.
    destruct (for_each column_info (rg_columns rg)) as [cols|e'] eqn:Ec;
      simpl in Hrg; [discriminate|].
    injection Hrg as ->.
    apply for_each_raise in Ec as [col [_ Hcol]].
    apply column_info_raise in Hcol. apply Hcol.
  - intros H. unfold show_parquet_metadata.
    rewrite (for_each_all_return row_group_info tolerant_row_group_info).
    + simpl. do 2 f_equal. apply map_ext. intros rg.
      rewrite tolerant_row_group_entry. reflexivity.
    + intros rg Hrg. unfold row_group_info, tolerant_row_group_info.
      rewrite (for_each_all_return column_info tolerant_column_info);
        [reflexivity|].
      intros col Hcol. apply column_info_tolerant.
      intros e He. apply is_not_implemented_iff. apply (H rg col e Hrg Hcol).
      rewrite read_statistics_entry in He.
      destruct (ParquetExpected.first_raise col); [|discriminate].
      injection He as ->. reflexivity.
Qed.

Lemma show_parquet_metadata_absorbs_not_implemented_witness :
  column_info ParquetExample.payload_column
  = Ret {| ci_path_in_schema := lit "payload";
           ci_physical_type := lit "INT96";
           ci_compression := lit "SNAPPY";
           ci_encodings := [lit "PLAIN"];
           ci_statistics := None |}
  /\ exists md,
       show_parquet_metadata ParquetExample.sample_file = Ret md
       /\ map (fun rg => map ci_statistics (ri_columns rg)) (md_row_groups md)
          = [[Some {| si_null_count := Some 0%Z; si_distinct_count := None;
                      si_min := Some (lit "1"); si_max := Some (lit "42");
                      si_num_values := Some 3%Z |};
              None]]
       /\ map (fun rg => map ci_physical_type (ri_columns rg)) (md_row_groups md)
          = [[lit "INT64"; lit "INT96"]].
Proof.
  destruct (show_parquet_metadata_absorbs_not_implemented ParquetExample.sample_file)
    as (Hcol & _ & Hfile).
  split.
  - apply (Hcol ParquetExample.payload_column
             (ArrowNotImplementedError (lit "min/max not implemented")));
      [reflexivity|]. eexists. right. reflexivity.
  - eexists. split.
    + apply Hfile. intros rg col e [<-|[]] [<-|[<-|[]]]; simpl.
      * discriminate.
      * intros [= <-]. eexists. right. reflexivity.
    + split; reflexivity.
Defined.

End ParquetFacts.

(** ** The sanitized text *)
Module CleanseFacts.
Import Exc Cortex.

Lemma sub_runs_cons (cls : char -> bool) (two in_run : bool) (c : char) (r : str) :
  sub_runs cls two in_run (c :: r)
  = if cls c then
      if in_run then sub_runs cls two true r
      else if two && negb (next_in cls r) then c :: sub_runs cls two false r
      else 32%N :: sub_runs cls two true r
    else c :: sub_runs cls two false r.
Proof. reflexivity. Qed.

(** The scan agrees with the reading of the pattern: a character outside
    the class is copied, a whole run of the class is consumed at once, and a
    run (of two or more when [two] is set) becomes one space. *)
Lemma sub_runs_copy (cls : char -> bool) (two in_run : bool) (c : char) (r : str) :
  cls c = false ->
  sub_runs cls two in_run (c :: r) = c :: sub_runs cls two false r.
Proof. intros H. rewrite sub_runs_cons, H. reflexivity. Qed.

Lemma sub_runs_consume (cls : char -> bool) (two : bool) (run rest : str) :
  forallb cls run = true ->
  next_in cls rest = false ->
  sub_runs cls two true (run ++ rest) = sub_runs cls two false rest.
Proof.
  intros Hrun Hrest. induction run as [|c run IH].
  - destruct rest as [|d rest]; [reflexivity|]. simpl in *.
    rewrite Hrest. reflexivity.
  - simpl in Hrun. apply andb_prop in Hrun as [Hc Hrun].
    change ((c :: run) ++ rest) with (c :: (run ++ rest)).
    rewrite sub_runs_cons, Hc. apply IH, Hrun.
Qed.

Lemma re_sub_plus_run (cls : char -> bool) (c : char) (run rest : str) :
  forallb cls (c :: run) = true ->
  next_in cls rest = false ->
  re_sub_plus cls ((c :: run) ++ rest) = 32%N :: re_sub_plus cls rest.
Proof.
  intros Hrun Hrest. simpl in Hrun. apply andb_prop in Hrun as [Hc Hrun].
  unfold re_sub_plus. change ((c :: run) ++ rest) with (c :: (run ++ rest)).
  rewrite sub_runs_cons, Hc. simpl. f_equal.
  apply sub_runs_consume; assumption.
Qed.

Lemma re_sub_two_or_more_run (cls : char -> bool) (c d : char) (run rest : str) :
  forallb cls (c :: d :: run) = true ->
  next_in cls rest = false ->
  re_sub_two_or_more cls ((c :: d :: run) ++ rest)
  = 32%N :: re_sub_two_or_more cls rest.
Proof.
  intros Hrun Hrest. simpl in Hrun. apply andb_prop in Hrun as [Hc Hrun].
  unfold re_sub_two_or_more.
  change ((c :: d :: run) ++ rest) with (c :: ((d :: run) ++ rest)).
  rewrite sub_runs_cons, Hc.
  assert (Hd : next_in cls ((d :: run) ++ rest) = true).
  { simpl in *. apply andb_prop in Hrun as [Hd _]. exact Hd. }
  rewrite Hd. simpl negb. rewrite andb_false_r. f_equal.
  apply sub_runs_consume; assumption.
Qed.

Lemma re_sub_two_or_more_single (cls : char -> bool) (c : char) (rest : str) :
  next_in cls rest = false ->
  re_sub_two_or_more cls (c :: rest) = c :: re_sub_two_or_more cls rest.
Proof.
  intros Hrest. unfold re_sub_two_or_more. rewrite sub_runs_cons, Hrest.
  destruct (cls c); reflexivity.
Qed.

(** A substitution pass only touches characters of its class, and puts
    spaces. *)
Lemma sub_runs_visible (cls : char -> bool) (two : bool) :
  (forall c, cls c = true -> visible c = false) ->
  forall (s : str) (in_run : bool),
    List.filter visible (sub_runs cls two in_run s) = List.filter visible s.
Proof.
  intros Hcls. induction s as [|c r IH]; intros in_run; [reflexivity|].
  rewrite sub_runs_cons. destruct (cls c) eqn:Ec.
  - simpl List.filter at 2. rewrite (Hcls c Ec).
    destruct in_run; [apply IH|].
    destruct (two && negb (next_in cls r)); simpl; rewrite ?(Hcls c Ec); apply IH.
  - simpl. rewrite IH. reflexivity.
Qed.


Lemma sub_runs_quotes (cls : char -> bool) (two : bool) :
  cls 39%N = false ->
  forall (s : str) (odd in_run : bool),
    (in_run = true -> odd = false) ->
    quotes_paired_from odd (sub_runs cls two in_run s) = quotes_paired_from odd s.
Proof.
  intros Hq. induction s as [|c r IH]; intros odd in_run Hrun; [reflexivity|].
  rewrite sub_runs_cons. destruct (cls c) eqn:Ec.
  - assert (Hc : (c =? 39)%N = false).
    { destruct (c =? 39)%N eqn:E; [|reflexivity].
      apply N.eqb_eq in E. subst c. congruence. }
    destruct in_run.
    + rewrite (Hrun eq_refl). simpl. rewrite Hc. simpl. apply IH. reflexivity.
    + destruct (two && negb (next_in cls r)); simpl; rewrite ?Hc;
        rewrite IH by (intros; reflexivity); reflexivity.
  - simpl. destruct (c =? 39)%N; rewrite IH by discriminate; reflexivity.
Qed.

Lemma replace_quote_paired (s : str) :
  quotes_paired (replace_char 39 [39; 39]%N s) = true.
Proof.
  unfold quotes_paired. induction s as [|c r IH]; [reflexivity|].
  simpl. destruct (c =? 39)%N eqn:E; simpl; [exact IH|].
  rewrite E. exact IH.
Qed.

Lemma replace_quote_visible (s : str) :
  List.filter visible (replace_char 39 [39; 39]%N s)
  = replace_char 39 [39; 39]%N (List.filter visible s).
Proof.
  induction s as [|c r IH]; [reflexivity|].
  simpl. destruct (c =? 39)%N eqn:E.
  - apply N.eqb_eq in E. subst c. simpl. rewrite IH. reflexivity.
  - simpl. destruct (visible c); simpl; rewrite ?E, IH; reflexivity.
Qed.

Lemma sub_plus_control_clean (s : str) (in_run : bool) :
  no_control (sub_runs is_control false in_run s) = true.
Proof.
  revert in_run. induction s as [|c r IH]; intros in_run; [reflexivity|].
  rewrite sub_runs_cons. destruct (is_control c) eqn:Ec.
  - destruct in_run; simpl; apply IH.
  - simpl. rewrite Ec. simpl. apply IH.
Qed.

Lemma sub_runs_keeps_clean (cls : char -> bool) (two : bool) (s : str) :
  forall in_run,
    no_control s = true -> no_control (sub_runs cls two in_run s) = true.
Proof.
  induction s as [|c r IH]; intros in_run H; [reflexivity|].
  simpl in H. apply andb_prop in H as [Hc Hr].
  rewrite sub_runs_cons.
  destruct (cls c); [destruct in_run; [|destruct (two && negb (next_in cls r))]|];
    simpl; rewrite ?Hc; simpl; apply IH, Hr.
Qed.

(** After the last pass no whitespace run of two or more is left; while a
    run is being consumed the output continues with a non-space. *)
Lemma sub_two_spaces (s : str) :
  no_space_pair (sub_runs Py.isspace true false s) = true
  /\ no_space_pair (sub_runs Py.isspace true true s) = true
  /\ next_in Py.isspace (sub_runs Py.isspace true true s) = false.
Proof.
  induction s as [|c r (IH1 & IH2 & IH3)]; [repeat split|].
  rewrite !sub_runs_cons. destruct (Py.isspace c) eqn:Ec.
  - split; [|split; assumption].
    destruct (next_in Py.isspace r) eqn:En; simpl.
    + rewrite IH3, IH2. reflexivity.
    + rewrite Ec, IH1.
      destruct r as [|c' r']; [reflexivity|].
      simpl in En. rewrite sub_runs_cons, En. simpl. rewrite En. reflexivity.
  - simpl. rewrite Ec. simpl. repeat split; assumption.
Qed.






Lemma space_not_visible (c : char) : Py.isspace c = true -> visible c = false.
Proof. intros H. unfold visible. rewrite H, orb_true_r. reflexivity. Qed.

Lemma control_not_visible (c : char) : is_control c = true -> visible c = false.
Proof. intros H. unfold visible. rewrite H. reflexivity. Qed.

Lemma nl_cr_tab_is_control (c : char) : is_nl_cr_tab c = true -> is_control c = true.
Proof.
  unfold is_nl_cr_tab. intros H.
  repeat (apply orb_prop in H as [H|H]); apply N.eqb_eq in H; subst c;
    reflexivity.
Qed.

Lemma nl_cr_tab_not_visible (c : char) : is_nl_cr_tab c = true -> visible c = false.
Proof. intros H. apply control_not_visible, nl_cr_tab_is_control, H. Qed.

Lemma escape_text_visible (s : str) :
  List.filter visible (escape_text s)
  = replace_char 39 [39; 39]%N (List.filter visible s).
Proof.
  unfold escape_text, re_sub_two_or_more, re_sub_plus.
  rewrite (sub_runs_visible _ _ space_not_visible),
          (sub_runs_visible _ _ control_not_visible),
          (sub_runs_visible _ _ nl_cr_tab_not_visible).
  apply replace_quote_visible.
Qed.


Lemma escape_text_quotes (s : str) : quotes_paired (escape_text s) = true.
Proof.
  unfold escape_text, re_sub_two_or_more, re_sub_plus, quotes_paired.
  rewrite !sub_runs_quotes; try reflexivity; try discriminate.
  apply replace_quote_paired.
Qed.

Lemma escape_text_clean (s : str) : no_control (escape_text s) = true.
Proof.
  unfold escape_text, re_sub_two_or_more, re_sub_plus.
  apply sub_runs_keeps_clean, sub_plus_control_clean.
Qed.

Lemma escape_text_spaces (s : str) : no_space_pair (escape_text s) = true.
Proof. unfold escape_text, re_sub_two_or_more. apply sub_two_spaces. Qed.

End CleanseFacts.

(** ** The summarization call *)
Module CortexFacts.
Import Exc Cortex.

Lemma skipped_says_skipped (e : exn) :
  Py.contains (lit "skipped") (skipped e) = true.
Proof. unfold skipped. apply PyFacts.contains_app_l. reflexivity. Qed.

Section WithSession.
Variable record : Type.
Variable json_dumps : record -> outcome str.
Variable py_str : record -> outcome str.
Variable session_sql : str -> outcome dataframe.

Local Abbreviation request := (cortex_request record json_dumps py_str session_sql).
Local Abbreviation call := (safe_cortex_call record json_dumps py_str session_sql).
Local Abbreviation cleanse := (cleanse_for_cortex record json_dumps py_str).

(** C6 (as the code behaves).  [safe_cortex_call] always returns.  Whenever
    a step of the request raises, it returns the text
    [AI summary skipped: ...], which contains the word [skipped]; this
    covers a record that cannot be serialized, a query that fails, and an
    answer with no row or no cell, where the text carries the message of
    the indexing error.  An answer that only lacks the
    [MODEL_OUTPUT] column raises nothing: its first cell is returned as it
    is, [NULL] included, and no skip text is produced. *)
Theorem safe_cortex_call_degrades (r : record) :
  (exists v, call r = Ret v)
  /\ (forall e, request r = Raise e ->
        call r = Ret (Cell (Some (skipped e)))
        /\ Py.contains (lit "skipped") (skipped e) = true)
  /\ (forall e1 e2,
        json_dumps r = Raise e1 -> py_str r = Raise e2 ->
        request r = Raise e2)
  /\ (forall text e,
        cleanse r 3000%Z = Ret text -> session_sql (sql_ai text) = Raise e ->
        request r = Raise e)
  /\ (forall text df,
        cleanse r 3000%Z = Ret text -> session_sql (sql_ai text) = Ret df ->
        rows df = [] ->
        call r
        = Ret (Cell (Some
            (lit "AI summary skipped: "
             ++ (if existsb (Py.str_eqb (lit "MODEL_OUTPUT")) (columns df)
                 then lit "single positional indexer is out-of-bounds"
                 else lit "index 0 is out of bounds for axis 0 with size 0")))))
  /\ (forall text df,
        cleanse r 3000%Z = Ret text -> session_sql (sql_ai text) = Ret df ->
        columns df = [] -> hd_error (rows df) = Some [] ->
        call r
        = Ret (Cell (Some
            (lit "AI summary skipped: "
             ++ lit "index 0 is out of bounds for axis 0 with size 0"))))
  /\ (forall text df v more,
        cleanse r 3000%Z = Ret text -> session_sql (sql_ai text) = Ret df ->
        existsb (Py.str_eqb (lit "MODEL_OUTPUT")) (columns df) = false ->
        hd_error (rows df) = Some (v :: more) ->
        call r = Ret (Cell v)).
Proof.
  unfold safe_cortex_call. split; [|split; [|split; [|split; [|split; [|split]]]]].
  - destruct (cortex_request record json_dumps py_str session_sql r);
      simpl; eexists; reflexivity.
  - intros e H. rewrite H. split; [reflexivity | apply skipped_says_skipped].
  - intros e1 e2 H1 H2. unfold cortex_request, cleanse_for_cortex, serialize.
    rewrite H1. simpl. rewrite H2. reflexivity.
  - intros text e Hc Hs. unfold cortex_request. rewrite Hc. simpl.
    rewrite Hs. reflexivity.
  - intros text df Hc Hs Hrows. unfold cortex_request.
    rewrite Hc. cbn [bind]. rewrite Hs. cbn [bind].
    unfold iloc_label, iloc_pos. rewrite Hrows.
    destruct (existsb _ _); reflexivity.
  - intros text df Hc Hs Hcols Hrow. unfold cortex_request.
    rewrite Hc. cbn [bind]. rewrite Hs. cbn [bind]. rewrite Hcols.
    cbn [existsb]. unfold iloc_pos.
    destruct (rows df) as [|row rest]; [discriminate|].
    injection Hrow as ->. reflexivity.
  - intros text df v more Hc Hs Hcol Hrow. unfold cortex_request.
    rewrite Hc. cbn [bind]. rewrite Hs. cbn [bind]. rewrite Hcol.
    unfold iloc_pos.
    destruct (rows df) as [|row rest]; [discriminate|].
    injection Hrow as ->. reflexivity.
Qed.

End WithSession.

Lemma safe_cortex_call_degrades_witness :
  safe_cortex_call str CortexExample.text_dumps CortexExample.text_str
    CortexExample.session_down CortexExample.quoted_record
  = Ret (Cell (Some (lit "AI summary skipped: service unavailable"))).
Proof.
  destruct (safe_cortex_call_degrades str CortexExample.text_dumps
              CortexExample.text_str CortexExample.session_down
              CortexExample.quoted_record) as (_ & H & _).
  destruct (H (OtherError (lit "SnowparkSQLException") (lit "service unavailable"))
              eq_refl) as [Hcall _].
  exact Hcall.
Defined.

(** C6 as it was stated fails on an answer without the [MODEL_OUTPUT]
    column: the first cell is returned, with no skip indication, and for a
    [NULL] cell what is returned is not a string at all. *)
Lemma safe_cortex_call_returns_unnamed_cell :
  safe_cortex_call str CortexExample.text_dumps CortexExample.text_str
    CortexExample.session_other_column CortexExample.quoted_record
  = Ret (Cell (Some (lit "- ok")))
  /\ Py.contains (lit "skipped") (lit "- ok") = false
  /\ safe_cortex_call str CortexExample.text_dumps CortexExample.text_str
       CortexExample.session_null CortexExample.quoted_record
     = Ret (Cell None).
Proof. repeat split. Qed.

End CortexFacts.

(** ** The scratch directory *)
Module ScratchFacts.
Import Exc Scratch.

(** The cleanup step never raises and leaves no directory [d]. *)
Lemma cleanup_removes (d : str) (fs : tmpfs) :
  exists fs',
    try_except (rmtree d) (fun _ => ret tt) fs = (Ret tt, fs')
    /\ fs' !! d = None
    /\ forall d', d' <> d -> fs' !! d' = fs !! d'.
Proof.
  unfold try_except, rmtree, ret. destruct (fs !! d) eqn:E.
  - exists (delete d fs). split; [reflexivity|]. split.
    + apply lookup_delete_eq.
    + intros d' Hd. apply lookup_delete_ne. congruence.
  - exists fs. split; [reflexivity|]. split; [exact E | reflexivity].
Qed.

(** A [try]/[except Exception] whose handler returns never raises. *)
Lemma guarded_returns (body : action unit) (fs : tmpfs) :
  fst (try_except body (fun _ => ret tt) fs) = Ret tt
  /\ snd (try_except body (fun _ => ret tt) fs) = snd (body fs).
Proof.
  unfold try_except, ret. destruct (body fs) as [[[]|e] fs']; split; reflexivity.
Qed.

Lemma bind_only_touches {A B : Type} (d : str) (m : action A) (k : A -> action B) :
  only_touches d m -> (forall a, only_touches d (k a)) -> only_touches d (bind m k).
Proof.
  intros Hm Hk fs d' Hd. unfold bind. specialize (Hm fs d' Hd).
  destruct (m fs) as [[a|e] fs1]; simpl in *; [|exact Hm].
  rewrite (Hk a fs1 d' Hd). exact Hm.
Qed.

Lemma unchanged_only_touches {A : Type} (d : str) (a : action A) :
  (forall fs, snd (a fs) = fs) -> only_touches d a.
Proof. intros H fs d' _. rewrite H. reflexivity. Qed.

Section Request.
Variable mkdtemp_name : tmpfs -> str.
Variable local_path : str -> str -> str.
Variable file_ext_of : str -> str.
Variable file_get : str -> str -> action unit.
Variable read_json read_avro read_parquet : str -> action unit.

Local Abbreviation request :=
  (read_file mkdtemp_name local_path file_ext_of file_get
     read_json read_avro read_parquet).

(** C8.  Whatever the download and the readers do (return or raise, at any
    point), the request itself returns and the directory made by [mkdtemp]
    no longer exists afterwards.  When that directory was new and the
    collaborators write nowhere else, the temporary area after the request
    is the one before it. *)
Theorem read_file_removes_scratch_dir
    (resolved_stage selected_file_only_path : str) (fs : tmpfs) :
  fst (request resolved_stage selected_file_only_path fs) = Ret tt
  /\ snd (request resolved_stage selected_file_only_path fs) !! mkdtemp_name fs = None
  /\ (fs !! mkdtemp_name fs = None ->
      (forall src d, only_touches d (file_get src d)) ->
      (forall p fs0, snd (read_json p fs0) = fs0) ->
      (forall p fs0, snd (read_avro p fs0) = fs0) ->
      (forall p fs0, snd (read_parquet p fs0) = fs0) ->
      snd (request resolved_stage selected_file_only_path fs) = fs).
Proof.
  set (d := mkdtemp_name fs).
  set (body := attempt file_get read_json read_avro read_parquet
                 resolved_stage selected_file_only_path d
                 (local_path d selected_file_only_path)
                 (file_ext_of (local_path d selected_file_only_path))).
  assert (Hreq : request resolved_stage selected_file_only_path fs
                 = try_finally (try_except body (fun _ => ret tt))
                     (try_except (rmtree d) (fun _ => ret tt)) (<[d:=[]]> fs))
    by reflexivity.
  rewrite Hreq. clear Hreq. unfold try_finally.
  destruct (guarded_returns body (<[d:=[]]> fs)) as [Hret Hfs].
  destruct (try_except body (fun _ => ret tt) (<[d:=[]]> fs)) as [r fs1].
  simpl in Hret, Hfs. subst r.
  destruct (cleanup_removes d fs1) as [fs2 (Hclean & Hgone & Hrest)].
  rewrite Hclean. simpl.
  split; [reflexivity|]. split; [exact Hgone|].
  intros Hfresh Hget Hjson Havro Hparquet.
  apply map_eq. intros d'. destruct (decide (d' = d)) as [->|Hd].
  - rewrite Hgone, Hfresh. reflexivity.
  - rewrite (Hrest d' Hd), Hfs.
    assert (Hbody : only_touches d body).
    { apply bind_only_touches; [apply Hget|]. intros _.
      repeat match goal with
             | |- only_touches _ (if ?c then _ else _) => destruct c
             end;
        apply unchanged_only_touches; auto. }
    rewrite (Hbody _ d' Hd). apply lookup_insert_ne. congruence.
Qed.

End Request.

Lemma read_file_removes_scratch_dir_witness :
  read_file ScratchExample.picked_name ScratchExample.join_path
    ScratchExample.ext_json ScratchExample.failing_get
    ScratchExample.quiet_reader ScratchExample.quiet_reader
    ScratchExample.quiet_reader (lit "DB.PUBLIC.S1") (lit "db/t1/part-0.json")
    ScratchExample.other_area
  = (Ret tt, ScratchExample.other_area).
Proof.
  pose proof (read_file_removes_scratch_dir ScratchExample.picked_name
                ScratchExample.join_path ScratchExample.ext_json
                ScratchExample.failing_get ScratchExample.quiet_reader
                ScratchExample.quiet_reader ScratchExample.quiet_reader
                (lit "DB.PUBLIC.S1") (lit "db/t1/part-0.json")
                ScratchExample.other_area) as (Hret & _ & Hsame).
  apply injective_projections; simpl; [exact Hret|].
  apply Hsame.
  - apply lookup_singleton_ne. discriminate.
  - intros src d fs d' Hd. simpl. apply lookup_insert_ne. congruence.
  - reflexivity.
  - reflexivity.
  - reflexivity.
Defined.

End ScratchFacts.

(** ** The descriptor parser *)
Module DdlFacts.
Import Py PyFacts Ddl.

Lemma ci_equal_length (key k : str) : ci_equal key k -> length k = length key.
Proof. intros H. induction H; simpl; congruence. Qed.

Lemma ci_prefix_some (key s r : str) :
  ci_prefix key s = Some r -> exists k, s = k ++ r /\ ci_equal key k.
Proof.
  revert s. induction key as [|p key IH]; intros s H; simpl in H.
  - injection H as ->. exists []. split; [reflexivity | constructor].
  - destruct s as [|c s]; [discriminate|].
    destruct (ci_match p c) eqn:E; [|discriminate].
    destruct (IH s H) as [k [-> Hk]].
    exists (c :: k). split; [reflexivity | constructor; assumption].
Qed.

Lemma ci_prefix_app (key k r : str) :
  ci_equal key k -> ci_prefix key (k ++ r) = Some r.
Proof.
  intros H. induction H as [|p c key k Hpc _ IH]; [reflexivity|].
  simpl. rewrite Hpc. exact IH.
Qed.

Lemma ci_prefix_app_none (key x t : str) :
  ci_prefix key x = None -> length key <= length x ->
  ci_prefix key (x ++ t) = None.
Proof.
  revert x. induction key as [|p key IH]; intros x H Hlen; [discriminate|].
  destruct x as [|c x]; [simpl in Hlen; lia|].
  simpl in *. destruct (ci_match p c); [|reflexivity].
  apply IH; [exact H | lia].
Qed.

Lemma lstrip_by_split (p : char -> bool) (s : str) :
  exists ws, s = ws ++ lstrip_by p s /\ forallb p ws = true.
Proof.
  induction s as [|c r [ws [Hs Hws]]]; [exists []; split; reflexivity|].
  simpl. destruct (p c) eqn:E.
  - exists (c :: ws). split; [simpl; f_equal; exact Hs | simpl; rewrite E; exact Hws].
  - exists []. split; reflexivity.
Qed.

Lemma lstrip_by_app (p : char -> bool) (ws : str) (c : char) (r : str) :
  forallb p ws = true -> p c = false -> lstrip_by p (ws ++ c :: r) = c :: r.
Proof.
  intros Hws Hc. induction ws as [|w ws IH]; simpl.
  - rewrite Hc. reflexivity.
  - simpl in Hws. apply andb_prop in Hws as [Hw Hws]. rewrite Hw. apply IH, Hws.
Qed.

Lemma span_unquoted_split (s v rest : str) :
  span_unquoted s = (v, rest) ->
  s = v ++ rest /\ forallb (fun c => negb (is_quote c)) v = true.
Proof.
  revert v rest. induction s as [|c r IH]; intros v rest H; simpl in H.
  - injection H as <- <-. split; reflexivity.
  - destruct (is_quote c) eqn:E.
    + injection H as <- <-. split; reflexivity.
    + destruct (span_unquoted r) as [v' rest'].
      injection H as <- <-. destruct (IH v' rest' eq_refl) as [-> Hv].
      split; [reflexivity | simpl; rewrite E; exact Hv].
Qed.

Lemma span_unquoted_app (v : str) (q : char) (rest : str) :
  forallb (fun c => negb (is_quote c)) v = true -> is_quote q = true ->
  span_unquoted (v ++ q :: rest) = (v, q :: rest).
Proof.
  intros Hv Hq. induction v as [|c v IH]; simpl.
  - rewrite Hq. reflexivity.
  - simpl in Hv. apply andb_prop in Hv as [Hc Hv].
    apply negb_true_iff in Hc. rewrite Hc, (IH Hv). reflexivity.
Qed.

Lemma quote_not_space (q : char) : is_quote q = true -> isspace q = false.
Proof.
  unfold is_quote. intros H.
  apply orb_prop in H as [H|H]; apply N.eqb_eq in H; subst q; reflexivity.
Qed.

Lemma match_at_some (key s v : str) :
  match_at key s = Some v ->
  exists k ws1 ws2 q1 q2 rest,
    s = k ++ ws1 ++ [61%N] ++ ws2 ++ [q1] ++ v ++ [q2] ++ rest
    /\ assignment key k ws1 ws2 q1 v q2 rest.
Proof.
  unfold match_at. intros H.
  destruct (ci_prefix key s) as [s1|] eqn:E1; [|discriminate].
  apply ci_prefix_some in E1 as [k [-> Hk]].
  destruct (lstrip_by_split isspace s1) as [ws1 [Hs1 Hws1]].
  destruct (lstrip_by isspace s1) as [|e s2]; [discriminate|].
  destruct (e =? 61)%N eqn:Ee; [|discriminate]. apply N.eqb_eq in Ee. subst e.
  destruct (lstrip_by_split isspace s2) as [ws2 [Hs2 Hws2]].
  destruct (lstrip_by isspace s2) as [|q1 s3]; [discriminate|].
  destruct (is_quote q1) eqn:Eq1; [|discriminate].
  destruct (span_unquoted s3) as [[|c v'] [|q2 rest]] eqn:Es; try discriminate.
  injection H as <-.
  pose proof (span_unquoted_split _ _ _ Es) as [Hs3 Hv].
  assert (Eq2 : is_quote q2 = true).
  { clear - Es. revert Es. generalize (c :: v') as w. intros w. revert w.
    induction s3 as [|x s3 IH]; intros w Es; simpl in Es; [discriminate|].
    destruct (is_quote x) eqn:Ex.
    - injection Es as _ -> _. exact Ex.
    - destruct (span_unquoted s3) as [w' r']. injection Es as _ ->.
      apply (IH w'). reflexivity. }
  exists k, ws1, ws2, q1, q2, rest. split.
  - rewrite Hs1, Hs2, Hs3. reflexivity.
  - repeat split; try assumption. discriminate.
Qed.

Lemma match_at_assignment (key k ws1 ws2 : str) (q1 : char) (v : str) (q2 : char)
    (rest : str) :
  assignment key k ws1 ws2 q1 v q2 rest ->
  match_at key (k ++ ws1 ++ [61%N] ++ ws2 ++ [q1] ++ v ++ [q2] ++ rest) = Some v.
Proof.
  intros (Hk & Hws1 & Hws2 & Hq1 & Hq2 & Hne & Hv).
  unfold match_at. rewrite (ci_prefix_app _ _ _ Hk).
  change (ws1 ++ [61%N] ++ ws2 ++ [q1] ++ v ++ [q2] ++ rest)
    with (ws1 ++ 61%N :: (ws2 ++ q1 :: (v ++ q2 :: rest))).
  rewrite (lstrip_by_app _ _ _ _ Hws1) by reflexivity.
  rewrite N.eqb_refl.
  rewrite (lstrip_by_app _ _ _ _ Hws2) by (apply quote_not_space, Hq1).
  rewrite Hq1, (span_unquoted_app _ _ _ Hv Hq2).
  destruct v; [contradiction|reflexivity].
Qed.

Lemma search_some (key ddl v : str) :
  search key ddl = Some v -> exists pre tail, ddl = pre ++ tail /\ match_at key tail = Some v.
Proof.
  induction ddl as [|c r IH]; simpl; intros H.
  - destruct (match_at key []) eqn:E; [|discriminate].
    exists [], []. split; [reflexivity | congruence].
  - destruct (match_at key (c :: r)) eqn:E.
    + exists [], (c :: r). split; [reflexivity | congruence].
    + destruct (IH H) as [pre [tail [-> Hm]]].
      exists (c :: pre), tail. split; [reflexivity | exact Hm].
Qed.

Lemma match_at_needs_key (key s : str) :
  ci_prefix key s = None -> match_at key s = None.
Proof. intros H. unfold match_at. rewrite H. reflexivity. Qed.

Lemma search_skips (key pre k tail : str) (v : str) :
  length k = length key ->
  no_key_before key (length pre) (pre ++ k) = true ->
  match_at key (k ++ tail) = Some v ->
  search key (pre ++ k ++ tail) = Some v.
Proof.
  intros Hlen Hno Hm. induction pre as [|c pre IH].
  - simpl. destruct (k ++ tail); simpl in *; rewrite Hm; reflexivity.
  - simpl in Hno.
    destruct (ci_prefix key (c :: pre ++ k)) eqn:E; [discriminate|].
    change ((c :: pre) ++ k ++ tail) with (c :: (pre ++ k ++ tail)).
    simpl search.
    assert (Hnone : match_at key (c :: pre ++ k ++ tail) = None).
    { apply match_at_needs_key.
      change (c :: pre ++ k ++ tail) with ((c :: pre) ++ k ++ tail).
      rewrite app_assoc. apply ci_prefix_app_none; [exact E|].
      simpl. rewrite length_app. lia. }
    rewrite Hnone. apply IH, Hno.
Qed.

(** X1.  A value returned by the search comes from an assignment in the
    text: the key in any mix of cases, optional whitespace around [=], a
    quote, the value, a quote.  The value is non-empty and holds no quote. *)
Theorem search_value_is_quoted (key ddl v : str) :
  search key ddl = Some v ->
  exists pre k ws1 ws2 q1 q2 rest,
    ddl = pre ++ k ++ ws1 ++ [61%N] ++ ws2 ++ [q1] ++ v ++ [q2] ++ rest
    /\ ci_equal key k
    /\ forallb isspace ws1 = true /\ forallb isspace ws2 = true
    /\ is_quote q1 = true /\ is_quote q2 = true
    /\ v <> [] /\ forallb (fun c => negb (is_quote c)) v = true.
Proof.
  intros H. apply search_some in H as [pre [tail [-> Hm]]].
  apply match_at_some in Hm as (k & ws1 & ws2 & q1 & q2 & rest & -> & Ha).
  exists pre, k, ws1, ws2, q1, q2, rest. split; [reflexivity | exact Ha].
Qed.

Lemma search_value_is_quoted_witness :
  exists pre k ws1 ws2 q1 q2 rest,
    DdlExample.sample_ddl
    = pre ++ k ++ ws1 ++ [61%N] ++ ws2 ++ [q1] ++ lit "/db/t1/" ++ [q2] ++ rest
    /\ ci_equal (lit "BASE_LOCATION") k
    /\ forallb isspace ws1 = true /\ forallb isspace ws2 = true
    /\ is_quote q1 = true /\ is_quote q2 = true
    /\ lit "/db/t1/" <> [] /\ forallb (fun c => negb (is_quote c)) (lit "/db/t1/") = true.
Proof.
  apply (search_value_is_quoted (lit "BASE_LOCATION") DdlExample.sample_ddl).
  reflexivity.
Defined.

(** X2.  If the key does not occur earlier in the text, the search returns
    the value of the assignment whatever the case of the key, the
    whitespace around [=] (newlines included) and the kind of the two
    quotes; the descriptor field is that value without trailing [/] and
    [*]. *)
Theorem search_finds_assignment
    (key pre k ws1 ws2 : str) (q1 : char) (v : str) (q2 : char) (rest : str) :
  ci_equal key k ->
  forallb isspace ws1 = true -> forallb isspace ws2 = true ->
  is_quote q1 = true -> is_quote q2 = true ->
  v <> [] -> forallb (fun c => negb (is_quote c)) v = true ->
  no_key_before key (length pre) (pre ++ k) = true ->
  search key (pre ++ k ++ ws1 ++ [61%N] ++ ws2 ++ [q1] ++ v ++ [q2] ++ rest)
  = Some v
  /\ clean_field
       (search key (pre ++ k ++ ws1 ++ [61%N] ++ ws2 ++ [q1] ++ v ++ [q2] ++ rest))
     = Some (Resolver.clean_path v).
Proof.
  intros Hk Hws1 Hws2 Hq1 Hq2 Hne Hv Hno.
  assert (Hs : search key (pre ++ k ++ ws1 ++ [61%N] ++ ws2 ++ [q1] ++ v ++ [q2] ++ rest)
               = Some v).
  { apply search_skips; [apply ci_equal_length, Hk | exact Hno |].
    apply match_at_assignment. repeat split; assumption. }
  split; [exact Hs|]. rewrite Hs. simpl. destruct v; [contradiction|reflexivity].
Qed.

Lemma search_finds_assignment_witness :
  search (lit "BASE_LOCATION") DdlExample.sample_ddl = Some (lit "/db/t1/")
  /\ base_location (parse_ddl DdlExample.sample_ddl) = Some (lit "/db/t1").
Proof.
  apply (search_finds_assignment (lit "BASE_LOCATION") DdlExample.ddl_head
           (lit "base_location") [10; 9]%N (lit "  ") 34%N (lit "/db/t1/") 34%N
           (lit ";")).
  - repeat constructor.
  - reflexivity.
  - reflexivity.
  - reflexivity.
  - reflexivity.
  - discriminate.
  - reflexivity.
  - vm_compute. reflexivity.
Defined.

End DdlFacts.

(** ** Stripping *)
Module StripFacts.
Import Py PyFacts.

Lemma lstrip_by_head (p : char -> bool) (s : str) (c : char) (r : str) :
  lstrip_by p s = c :: r -> p c = false.
Proof.
  induction s as [|x s IH]; simpl; [discriminate|].
  destruct (p x) eqn:E; [exact IH|]. intros [= <- _]. exact E.
Qed.

Lemma rstrip_by_last (p : char -> bool) (s a : str) (c : char) :
  rstrip_by p s = a ++ [c] -> p c = false.
Proof.
  revert a. induction s as [|x s IH]; intros a; simpl.
  - destruct a; discriminate.
  - destruct (rstrip_by p s) as [|y r'] eqn:E.
    + destruct (p x) eqn:Ex; [destruct a; discriminate|].
      destruct a as [|z [|? ?]]; intros [= ]; subst; try exact Ex.
    + destruct a as [|z a]; [intros [=]; destruct r'; discriminate|].
      intros [= _ H]. apply (IH a). exact H.
Qed.

Lemma rstrip_by_split (p : char -> bool) (s : str) :
  exists t, s = rstrip_by p s ++ t /\ forallb p t = true.
Proof.
  induction s as [|c r [t [Hr Ht]]]; [exists []; split; reflexivity|].
  simpl. destruct (rstrip_by p r) as [|y r'] eqn:E.
  - destruct (p c) eqn:Ec.
    + exists (c :: t). simpl in *. split; [f_equal; exact Hr | rewrite Ec; exact Ht].
    + exists t. simpl in *. split; [f_equal; exact Hr | exact Ht].
  - exists t. split; [simpl; f_equal; exact Hr | exact Ht].
Qed.

Lemma rstrip_by_cons (p : char -> bool) (c : char) (r : str) :
  rstrip_by p (c :: r)
  = match rstrip_by p r with
    | [] => if p c then [] else [c]
    | r' => c :: r'
    end.
Proof. reflexivity. Qed.

(** Stripping a smaller class after a larger one changes nothing. *)
Lemma rstrip_by_absorb (p q : char -> bool) (s : str) :
  (forall c, q c = true -> p c = true) ->
  rstrip_by q (rstrip_by p s) = rstrip_by p s.
Proof.
  intros Hqp. induction s as [|c r IH]; [reflexivity|].
  rewrite (rstrip_by_cons p). destruct (rstrip_by p r) as [|y r'] eqn:E.
  - destruct (p c) eqn:Ec; [reflexivity|]. simpl.
    destruct (q c) eqn:Eq; [|reflexivity]. rewrite (Hqp c Eq) in Ec. discriminate.
  - rewrite (rstrip_by_cons q), IH. reflexivity.
Qed.

Lemma lstrip_by_idem (p : char -> bool) (s : str) :
  lstrip_by p (lstrip_by p s) = lstrip_by p s.
Proof.
  induction s as [|c r IH]; [reflexivity|]. simpl.
  destruct (p c) eqn:E; [exact IH|]. simpl. rewrite E. reflexivity.
Qed.

Lemma lstrip_by_cons (p : char -> bool) (c : char) (r : str) :
  lstrip_by p (c :: r) = if p c then lstrip_by p r else c :: r.
Proof. reflexivity. Qed.

Lemma lstrip_rstrip_comm (p : char -> bool) (s : str) :
  lstrip_by p (rstrip_by p s) = rstrip_by p (lstrip_by p s).
Proof.
  induction s as [|c r IH]; [reflexivity|].
  rewrite rstrip_by_cons, (lstrip_by_cons p c r). destruct (p c) eqn:Ec.
  - rewrite <- IH. destruct (rstrip_by p r) as [|y r']; [reflexivity|].
    rewrite lstrip_by_cons, Ec. reflexivity.
  - rewrite rstrip_by_cons.
    destruct (rstrip_by p r) as [|y r']; rewrite lstrip_by_cons, Ec; reflexivity.
Qed.

Lemma lstrip_empty_rstrip (p : char -> bool) (s : str) :
  lstrip_by p s = [] -> rstrip_by p s = [].
Proof.
  induction s as [|c r IH]; [reflexivity|]. simpl.
  destruct (p c) eqn:E; [|discriminate]. intros H. rewrite (IH H). reflexivity.
Qed.

Lemma rstrip_by_app_keep (p : char -> bool) (a b : str) :
  b <> [] -> rstrip_by p b = b -> rstrip_by p (a ++ b) = a ++ b.
Proof.
  intros Hne Hb. induction a as [|c a IH]; [exact Hb|].
  simpl. rewrite IH. destruct (a ++ b) eqn:E; [|reflexivity].
  apply app_eq_nil in E as [_ ->]. contradiction.
Qed.

Lemma lstrip_by_app_keep (p : char -> bool) (a b : str) :
  lstrip_by p a <> [] -> lstrip_by p (a ++ b) = lstrip_by p a ++ b.
Proof.
  induction a as [|c a IH]; [contradiction|]. simpl.
  destruct (p c); [exact IH | reflexivity].
Qed.

Lemma slash_is_slash (c : char) : char_in c (lit "/") = true <-> c = 47%N.
Proof.
  unfold char_in. simpl. rewrite orb_false_r. apply N.eqb_eq.
Qed.

Lemma lstrip_no_leading_slash (s : str) :
  startswith (lstrip (lit "/") s) (lit "/") = false.
Proof.
  unfold lstrip. destruct (lstrip_by _ s) as [|c r] eqn:E; [reflexivity|].
  apply lstrip_by_head in E. change (lit "/") with [47%N].
  rewrite startswith_cons. change (startswith r []) with true.
  rewrite andb_true_r.
  destruct (47 =? c)%N eqn:Ec; [|reflexivity].
  apply N.eqb_eq in Ec. subst c. discriminate.
Qed.

Lemma rstrip_by_no_trailing (p : char -> bool) (s : str) (c : char) :
  p c = true -> endswith (rstrip_by p s) [c] = false.
Proof.
  intros Hc. destruct (endswith (rstrip_by p s) [c]) eqn:E; [|reflexivity].
  apply endswith_iff in E as [pre E]. apply rstrip_by_last in E. congruence.
Qed.

End StripFacts.

(** ** More on the resolver *)
Module ResolverMoreFacts.
Import Py PyFacts StripFacts Resolver.

Lemma clean_path_one_pass (x : str) : clean_path x = rstrip (lit "/*") x.
Proof.
  unfold clean_path, rstrip. apply rstrip_by_absorb.
  intros c H. apply slash_is_slash in H. subst c. reflexivity.
Qed.

(** X3.  [x.rstrip("/*").rstrip("/")] only removes a tail made of [/] and
    [*]: the second call never changes anything, the result ends with
    neither character, and cleaning twice is cleaning once. *)
Theorem clean_path_strips_tail (x : str) :
  clean_path x = rstrip (lit "/*") x
  /\ (exists t, x = clean_path x ++ t
                /\ forallb (fun c => char_in c (lit "/*")) t = true)
  /\ endswith (clean_path x) (lit "/") = false
  /\ endswith (clean_path x) (lit "*") = false
  /\ clean_path (clean_path x) = clean_path x.
Proof.
  split; [apply clean_path_one_pass|].
  rewrite !clean_path_one_pass. unfold rstrip.
  split; [exact (rstrip_by_split _ x)|].
  split; [apply rstrip_by_no_trailing; reflexivity|].
  split; [apply rstrip_by_no_trailing; reflexivity|].
  apply rstrip_by_absorb. auto.
Qed.

(** The parts that are joined, after the filter. *)
Lemma relative_prefix_parts (rel : str) (base : option str) :
  relative_prefix rel base
  = strip (lit "/")
      (join (lit "/")
         (List.filter truthy
            [rstrip (lit "/") rel;
             rstrip (lit "/") (lstrip (lit "/") (default [] base))])).
Proof.
  unfold relative_prefix.
  destruct rel as [|c rel]; destruct base as [[|b base]|]; reflexivity.
Qed.

Lemma truthy_nonempty (s : str) : truthy s = true <-> s <> [].
Proof. destruct s; simpl; split; congruence. Qed.

(** X4.  [relative_prefix] is the two parts, each without its leading and
    trailing [/], joined by one [/], an empty part being left out; it
    neither begins nor ends with [/]. *)
Theorem relative_prefix_is_clean_join (relative_from_ev : str)
    (base_location : option str) :
  relative_prefix relative_from_ev base_location
  = join (lit "/")
      (List.filter truthy
         [strip (lit "/") relative_from_ev;
          strip (lit "/") (default [] base_location)])
  /\ startswith (relative_prefix relative_from_ev base_location) (lit "/") = false
  /\ endswith (relative_prefix relative_from_ev base_location) (lit "/") = false.
Proof.
  split.
  - rewrite relative_prefix_parts.
    set (p := fun c => char_in c (lit "/")).
    set (b := default [] base_location).
    unfold strip, lstrip, rstrip. fold p.
    rewrite (lstrip_rstrip_comm p b).
    set (A := rstrip_by p relative_from_ev).
    set (B := rstrip_by p (lstrip_by p b)).
    assert (HA : rstrip_by p A = A) by (apply rstrip_by_absorb; auto).
    assert (HB : rstrip_by p B = B) by (apply rstrip_by_absorb; auto).
    assert (HBl : lstrip_by p B = B).
    { unfold B. rewrite <- lstrip_rstrip_comm, lstrip_by_idem. reflexivity. }
    assert (HAl : A <> [] -> lstrip_by p A <> []).
    { intros Hne E. apply lstrip_empty_rstrip in E. congruence. }
    destruct A as [|a A'] eqn:EA; destruct B as [|b0 B'] eqn:EB.
    + reflexivity.
    + cbn [List.filter truthy join lstrip_by]. rewrite HB, HBl. reflexivity.
    + cbn [List.filter truthy join]. rewrite HA.
      specialize (HAl ltac:(discriminate)).
      destruct (lstrip_by p (a :: A')) eqn:E; [contradiction|reflexivity].
    + specialize (HAl ltac:(discriminate)).
      assert (Hl : truthy (lstrip_by p (a :: A')) = true)
        by (apply truthy_nonempty, HAl).
      cbn [List.filter truthy join]. rewrite Hl.
      rewrite (rstrip_by_app_keep p (a :: A') (lit "/" ++ b0 :: B')).
      * rewrite (lstrip_by_app_keep p _ _ HAl).
        destruct (lstrip_by p (a :: A')); [contradiction|reflexivity].
      * discriminate.
      * apply (rstrip_by_app_keep p (lit "/") (b0 :: B')); [discriminate | exact HB].
  - unfold relative_prefix. split.
    + apply lstrip_no_leading_slash.
    + unfold strip, lstrip, rstrip. rewrite lstrip_rstrip_comm.
      apply rstrip_by_no_trailing. reflexivity.
Qed.

(** X5.  The loop takes the first row of the table that passes the test,
    whatever comes after it (a later row with a longer URL is not
    preferred), and no row is selected exactly when none passes. *)
Theorem find_stage_first_match (stage_df : list stage_row) (ev_s3_path : str) :
  (forall before row after,
     stage_df = before ++ row :: after ->
     Forall (fun r => stage_matches ev_s3_path (clean_path (STAGE_URL r)) = false)
       before ->
     stage_matches ev_s3_path (clean_path (STAGE_URL row)) = true ->
     find_stage stage_df ev_s3_path = Some row)
  /\ (find_stage stage_df ev_s3_path = None <->
      Forall (fun r => stage_matches ev_s3_path (clean_path (STAGE_URL r)) = false)
        stage_df).
Proof.
  split; [|apply ResolverFacts.find_stage_first].
  intros before row after -> Hbefore Hrow.
  induction Hbefore as [|r before Hr _ IH]; simpl.
  - rewrite Hrow. reflexivity.
  - rewrite Hr. exact IH.
Qed.

Lemma find_stage_first_match_witness :
  find_stage [ResolverExample.mount_1; ResolverExample.bucket_root;
              ResolverExample.mount_10]
    (lit "s3://bucket/mount-10/x")
  = Some ResolverExample.bucket_root.
Proof.
  apply (proj1 (find_stage_first_match _ (lit "s3://bucket/mount-10/x"))
           [ResolverExample.mount_1] ResolverExample.bucket_root
           [ResolverExample.mount_10]).
  - reflexivity.
  - repeat constructor.
  - reflexivity.
Defined.

End ResolverMoreFacts.

(** ** The selected path *)
Module SelectionFacts.
Import Py PyFacts StripFacts Lister Selection.

Lemma strip_stage_url_under (stage_url rest : str) :
  strip_stage_url stage_url (stage_url ++ rest) = lstrip (lit "/") rest.
Proof.
  unfold strip_stage_url. rewrite startswith_app, andb_true_r.
  destruct (Resolver.truthy stage_url) eqn:E.
  - unfold slice_from. rewrite drop_app_length. reflexivity.
  - destruct stage_url; [reflexivity | discriminate].
Qed.

(** X6.  The path kept from a listed name never begins with [/].  When the
    name begins with the stage URL the URL is cut off as a plain prefix of
    the text, with no test that a [/] follows it, and the leading [/] of
    what is left are dropped. *)
Theorem strip_stage_url_cuts_raw_prefix (stage_url : str) :
  (forall name, startswith (strip_stage_url stage_url name) (lit "/") = false)
  /\ (forall rest,
        strip_stage_url stage_url (stage_url ++ rest) = lstrip (lit "/") rest)
  /\ (forall name,
        startswith name stage_url = false ->
        strip_stage_url stage_url name = lstrip (lit "/") name).
Proof.
  split; [|split].
  - intros name. unfold strip_stage_url.
    destruct (_ && _); apply lstrip_no_leading_slash.
  - apply strip_stage_url_under.
  - intros name H. unfold strip_stage_url. rewrite H, andb_false_r. reflexivity.
Qed.

Lemma strip_stage_url_cuts_raw_prefix_witness :
  strip_stage_url (lit "s3://bucket/mount-1") (lit "other/part-0.parquet")
  = lstrip (lit "/") (lit "other/part-0.parquet").
Proof.
  apply (proj2 (proj2 (strip_stage_url_cuts_raw_prefix (lit "s3://bucket/mount-1")))).
  reflexivity.
Defined.

(** The URL of a sibling stage is cut in the middle of a path segment. *)
Example strip_stage_url_sibling :
  strip_stage_url (lit "s3://bucket/mount-1") (lit "s3://bucket/mount-10/x.parquet")
  = lit "0/x.parquet".
Proof. reflexivity. Qed.

(** X7.  Choosing the label of an object gives the same path as the
    single-match search, which reads the name itself, provided the listed
    name neither contains [" | "] nor ends with [" |"].  For an object
    listed as stage URL, [/], key, with a key that does not begin with [/],
    that path is the key. *)
Theorem dropdown_choice_returns_key (stage_url : str) (e : object_entry) :
  contains (lit " | ") (NAME e) = false ->
  endswith (NAME e) (lit " |") = false ->
  dropdown_choice stage_url (make_label e) = single_match stage_url e
  /\ forall key,
       NAME e = stage_url ++ lit "/" ++ key ->
       startswith key (lit "/") = false ->
       dropdown_choice stage_url (make_label e) = key.
Proof.
  intros Hc He.
  assert (Hsame : dropdown_choice stage_url (make_label e)
                  = single_match stage_url e).
  { unfold dropdown_choice, single_match, selected_name, make_label.
    rewrite ListerFacts.split_first, (ListerFacts.before_first_label _ _ Hc He).
    reflexivity. }
  split; [exact Hsame|].
  intros key Hname Hkey. rewrite Hsame. unfold single_match.
  rewrite Hname, strip_stage_url_under.
  change (lit "/" ++ key) with (47%N :: key).
  unfold lstrip. rewrite lstrip_by_cons.
  change (char_in 47 (lit "/")) with true. cbv iota.
  destruct key as [|c key]; [reflexivity|].
  rewrite lstrip_by_cons.
  destruct (char_in c (lit "/")) eqn:E; [|reflexivity].
  apply slash_is_slash in E. subst c. discriminate.
Qed.

Lemma dropdown_choice_returns_key_witness :
  dropdown_choice (lit "s3://bucket/mount-1")
    (make_label SelectionExample.listed_object)
  = lit "db/t1/part-0.parquet".
Proof.
  apply (proj2 (dropdown_choice_returns_key (lit "s3://bucket/mount-1")
                  SelectionExample.listed_object eq_refl eq_refl)
           (lit "db/t1/part-0.parquet"));
    reflexivity.
Defined.

Lemma contains_middle (sub a b : str) : contains sub (a ++ sub ++ b) = true.
Proof.
  apply (occurrence_contains sub _ (length a)).
  rewrite drop_app_length. apply startswith_app.
Qed.

(** X12.  No label is taken for the [Select One] entry of the select box:
    every label holds [" | "], which that entry does not, so choosing the
    label of any listed object yields a path. *)
Theorem label_is_never_select_one (stage_url : str) (e : object_entry) :
  dropdown stage_url (lit "Select One") = None
  /\ dropdown stage_url (make_label e)
     = Some (dropdown_choice stage_url (make_label e)).
Proof.
  split; [reflexivity|]. unfold dropdown.
  destruct (str_eqb (make_label e) (lit "Select One")) eqn:E; [|reflexivity].
  apply str_eqb_eq in E.
  pose proof (contains_middle (lit " | ") (NAME e) (LAST_MODIFIED e)) as H.
  unfold make_label in E. rewrite E in H. discriminate.
Qed.

End SelectionFacts.

(** ** Reading the text file *)
Module TextFileFacts.
Import Json Exc Extractor TextFile.

Section WithParser.
Variable json_loads : str -> parsed.

(** X8.  The app script rewinds the file after a failed whole-file parse
    and reads every line; the older script does not, so its loop starts at
    the end of the file and it extracts no record at all whenever the
    whole-file parse fails. *)
Theorem legacy_reads_nothing_after_failed_parse (text : str) :
  read_records json_loads text = extract_records json_loads text
  /\ legacy_read_records json_loads text = Legacy.extract_records json_loads text
  /\ (json_loads text = JSONDecodeError ->
      legacy_read_records json_loads text = Ret []
      /\ read_records json_loads text
         = Ret (map (line_record json_loads) (nonblank_lines text))).
Proof.
  assert (Happ : read_records json_loads text = extract_records json_loads text).
  { unfold read_records, extract_records, json_load, read, lines, seek, open_text.
    simpl. rewrite !drop_0. destruct (json_loads text); reflexivity. }
  assert (Hleg : legacy_read_records json_loads text
                 = Legacy.extract_records json_loads text).
  { unfold legacy_read_records, Legacy.extract_records, json_load, read, lines,
      open_text.
    simpl. rewrite !drop_0. destruct (json_loads text); [reflexivity| |reflexivity].
    rewrite drop_all. reflexivity. }
  split; [exact Happ|]. split; [exact Hleg|].
  intros H. split.
  - rewrite Hleg. apply ExtractorFacts.legacy_extract_records_fallback, H.
  - rewrite Happ. apply ExtractorFacts.extract_records_fallback, H.
Qed.

End WithParser.

Lemma legacy_reads_nothing_after_failed_parse_witness :
  legacy_read_records JsonReader.loads JsonReader.ndjson_example = Ret []
  /\ exists records,
       read_records JsonReader.loads JsonReader.ndjson_example = Ret records
       /\ length records = 3.
Proof.
  destruct (legacy_reads_nothing_after_failed_parse JsonReader.loads
              JsonReader.ndjson_example) as (_ & _ & H).
  destruct (H eq_refl) as [Hleg Happ].
  split; [exact Hleg|]. eexists. split; [exact Happ | reflexivity].
Defined.

(** X9.  The viewer is handed the list of extracted records and parses the
    file again.  When the file is one JSON document it only rebinds its own
    name and the caller's list is untouched; when the whole-file parse fails
    it appends the record of every non-blank line to the list it was given.
    The list sent to the summary afterwards therefore holds every line of a
    line-delimited file twice. *)
Theorem summary_sees_fallback_lines_twice
    (json_loads : str -> parsed) (text : str) :
  (forall records obj,
     json_loads text = Value obj ->
     render_json_avro_view json_loads records (Ret text) = records)
  /\ (forall records,
        json_loads text = JSONDecodeError ->
        render_json_avro_view json_loads records (Ret text)
        = records ++ map (line_record json_loads) (nonblank_lines text))
  /\ (json_loads text = JSONDecodeError ->
      records_for_summary json_loads text
      = Ret (map (line_record json_loads) (nonblank_lines text)
             ++ map (line_record json_loads) (nonblank_lines text))).
Proof.
  split; [|split].
  - intros records obj H. unfold render_json_avro_view. rewrite H. reflexivity.
  - intros records H. unfold render_json_avro_view. rewrite H.
    apply ExtractorFacts.parse_lines_appends.
  - intros H. apply ExtractorFacts.records_for_summary_fallback, H.
Qed.

Lemma summary_sees_fallback_lines_twice_witness :
  exists records,
    records_for_summary JsonReader.loads JsonReader.ndjson_example = Ret records
    /\ length records = 6.
Proof.
  eexists. split.
  - apply (proj2 (proj2 (summary_sees_fallback_lines_twice JsonReader.loads
                           JsonReader.ndjson_example)) eq_refl).
  - reflexivity.
Defined.

End TextFileFacts.

(** ** The Parquet view *)
Module ParquetViewFacts.
Import Exc Parquet ParquetView ParquetFacts.

Lemma for_each_returns {A B : Type} (f : A -> outcome B) (g : A -> B)
    (xs : list A) (ys : list B) :
  (forall x y, f x = Ret y -> y = g x) ->
  for_each f xs = Ret ys -> ys = map g xs.
Proof.
  intros Hg. revert ys. induction xs as [|x rest IH]; intros ys; simpl.
  - intros [= <-]. reflexivity.
  - destruct (f x) as [y|e] eqn:Ex; simpl; [|discriminate].
    destruct (for_each f rest) as [zs|e]; simpl; [|discriminate].
    intros [= <-]. rewrite (Hg x y Ex), (IH zs eq_refl). reflexivity.
Qed.

Lemma column_info_returns (col : column_chunk) (ci : col_info) :
  column_info col = Ret ci -> ci = tolerant_column_info col.
Proof.
  unfold column_info, tolerant_column_info.
  destruct (read_statistics col) as [s|e]; simpl.
  - intros [= <-]. reflexivity.
  - destruct (is_not_implemented e); [|discriminate]. intros [= <-]. reflexivity.
Qed.

Lemma row_group_info_returns (rg : row_group) (ri : rg_info) :
  row_group_info rg = Ret ri -> ri = tolerant_row_group_info rg.
Proof.
  unfold row_group_info, tolerant_row_group_info.
  destruct (for_each column_info (rg_columns rg)) as [cols|e] eqn:E; simpl;
    [|discriminate].
  intros [= <-].
  rewrite (for_each_returns _ _ _ _ column_info_returns E). reflexivity.
Qed.

Lemma show_returns_row_groups (f : parquet_file) (md : metadata) :
  show_parquet_metadata f = Ret md ->
  md_row_groups md = map tolerant_row_group_info (row_groups f).
Proof.
  unfold show_parquet_metadata.
  destruct (for_each row_group_info (row_groups f)) as [rgs|e] eqn:E; simpl;
    [|discriminate].
  intros [= <-]. simpl.
  apply (for_each_returns _ _ _ _ row_group_info_returns E).
Qed.

(** X10.  Whenever [show_parquet_metadata] returns, whatever was raised on
    the way, the result holds the overview, the schema and the key-value
    pairs of the file, and lists every row group and every column chunk of
    each, in file order: a row group with its number of rows and its size,
    a column with its path, physical type, compression and encodings and
    with its five statistics where all are readable, [None] elsewhere. *)
Theorem show_parquet_metadata_keeps_structure (f : parquet_file) (md : metadata) :
  show_parquet_metadata f = Ret md ->
  md_row_groups md
  = map (fun rg =>
           {| ri_num_rows := rg_num_rows rg;
              ri_total_byte_size := rg_total_byte_size rg;
              ri_columns :=
                map (fun col =>
                       {| ci_path_in_schema := path_in_schema col;
                          ci_physical_type := physical_type col;
                          ci_compression := compression col;
                          ci_encodings := encodings col;
                          ci_statistics := ParquetExpected.statistics_entry col |})
                  (rg_columns rg) |})
      (row_groups f)
  /\ overview md
     = {| ov_file_path := file_path f;
          ov_created_by := created_by f;
          ov_num_rows := num_rows f;
          ov_num_columns := num_columns f;
          ov_num_row_groups := Z.of_nat (length (row_groups f)) |}
  /\ schema_df md = schema_arrow f
  /\ kv md = kv_metadata f
  /\ length (md_row_groups md) = length (row_groups f).
Proof.
  intros H. pose proof (show_returns_row_groups f md H) as Hrg.
  assert (Hrest : overview md = ParquetExpected.overview_entry f
                  /\ schema_df md = schema_arrow f /\ kv md = kv_metadata f).
  { revert H. unfold show_parquet_metadata.
    destruct (for_each row_group_info (row_groups f)); simpl; [|discriminate].
    intros [= <-]. repeat split. }
  destruct Hrest as (Hov & Hschema & Hkv).
  split; [|split; [exact Hov|split; [exact Hschema|split; [exact Hkv|]]]].
  - rewrite Hrg. apply map_ext. intros rg.
    rewrite tolerant_row_group_entry. reflexivity.
  - rewrite Hrg. apply length_map.
Qed.

Lemma show_parquet_metadata_keeps_structure_witness :
  exists md,
    show_parquet_metadata ParquetExample.sample_file = Ret md
    /\ map (fun ri => map ci_path_in_schema (ri_columns ri)) (md_row_groups md)
       = [[lit "id"; lit "payload"]]
    /\ map (fun ri => map ci_encodings (ri_columns ri)) (md_row_groups md)
       = [[[lit "PLAIN"; lit "RLE"]; [lit "PLAIN"]]].
Proof.
  eexists. split; [reflexivity|].
  destruct (show_parquet_metadata_keeps_structure ParquetExample.sample_file _
              eq_refl) as (H & _).
  rewrite H. split; reflexivity.
Defined.

Lemma enumerate_from_map {A B : Type} (g : A -> B) (xs : list A) (i : nat) :
  enumerate_from i (map g xs)
  = map (fun '(k, x) => (k, g x)) (enumerate_from i xs).
Proof.
  revert i. induction xs as [|x rest IH]; intros i; [reflexivity|].
  simpl. rewrite IH. reflexivity.
Qed.

(** X11.  In the rendered view the expanders are numbered from 1 in file
    order and each table has one row per column chunk.  A row has its five
    statistic cells empty whenever reading the statistics returned [None]
    or raised: a column whose statistics are not implemented shows like a
    column without statistics. *)
Theorem render_row_groups_after_show (f : parquet_file) (md : metadata) :
  show_parquet_metadata f = Ret md ->
  render_row_groups md
  = map (fun '(i, rg) =>
           {| rv_number := i;
              rv_num_rows := rg_num_rows rg;
              rv_total_byte_size := rg_total_byte_size rg;
              rv_rows := map (fun col => row_of (tolerant_column_info col))
                           (rg_columns rg) |})
        (enumerate_from 1 (row_groups f))
  /\ forall col,
       (forall s, read_statistics col <> Ret (Some s)) ->
       no_stat_cells (row_of (tolerant_column_info col)).
Proof.
  intros H. split.
  - unfold render_row_groups.
    rewrite (show_returns_row_groups f md H), enumerate_from_map, map_map.
    apply map_ext.
    intros [i rg]. simpl. rewrite map_map. reflexivity.
  - intros col Hcol. unfold tolerant_column_info, row_of, no_stat_cells. simpl.
    destruct (read_statistics col) as [[s|]|e]; [|repeat split..].
    exfalso. apply (Hcol s). reflexivity.
Qed.

Lemma for_each_stops {A B : Type} (f : A -> outcome B) (g : A -> B)
    (pre : list A) (x : A) (post : list A) (e : exn) :
  (forall a, In a pre -> f a = Ret (g a)) ->
  f x = Raise e ->
  for_each f (pre ++ x :: post) = Raise e.
Proof.
  intros Hpre Hx. induction pre as [|a pre IH]; simpl.
  - rewrite Hx. reflexivity.
  - rewrite (Hpre a) by (left; reflexivity). simpl.
    rewrite IH by (intros b Hb; apply Hpre; right; exact Hb). reflexivity.
Qed.

Lemma tolerable_column (col : column_chunk) :
  tolerable col = true -> column_info col = Ret (tolerant_column_info col).
Proof.
  unfold tolerable. intros H. apply column_info_tolerant.
  intros e He. rewrite He in H. exact H.
Qed.

Lemma tolerable_row_group (rg : row_group) :
  Forall (fun col => tolerable col = true) (rg_columns rg) ->
  row_group_info rg = Ret (tolerant_row_group_info rg).
Proof.
  intros H. unfold row_group_info, tolerant_row_group_info.
  rewrite (for_each_all_return column_info tolerant_column_info);
    [reflexivity|].
  intros col Hcol. apply tolerable_column.
  rewrite List.Forall_forall in H. apply H, Hcol.
Qed.

(** X21.  Only the two "not implemented" exceptions are absorbed per
    column.  The first column, in file order, whose statistics raise
    anything else ends [show_parquet_metadata] with that exception: nothing
    of the row groups and columns already read is returned. *)
Theorem show_parquet_metadata_first_failure
    (f : parquet_file) (pre : list row_group) (rg : row_group)
    (post : list row_group) (cpre : list column_chunk) (col : column_chunk)
    (cpost : list column_chunk) (e : exn) :
  row_groups f = pre ++ rg :: post ->
  rg_columns rg = cpre ++ col :: cpost ->
  Forall (fun g => Forall (fun c => tolerable c = true) (rg_columns g)) pre ->
  Forall (fun c => tolerable c = true) cpre ->
  read_statistics col = Raise e ->
  is_not_implemented e = false ->
  show_parquet_metadata f = Raise e.
Proof.
  intros Hf Hrg Hpre Hcpre Hcol He.
  assert (Hci : column_info col = Raise e).
  { unfold column_info. rewrite Hcol. simpl. rewrite He. reflexivity. }
  assert (Hri : row_group_info rg = Raise e).
  { unfold row_group_info. rewrite Hrg.
    rewrite (for_each_stops column_info tolerant_column_info cpre col cpost e).
    - reflexivity.
    - intros c Hc. apply tolerable_column.
      rewrite List.Forall_forall in Hcpre. apply Hcpre, Hc.
    - exact Hci. }
  unfold show_parquet_metadata. rewrite Hf.
  rewrite (for_each_stops row_group_info tolerant_row_group_info pre rg post e).
  - reflexivity.
  - intros g Hg. apply tolerable_row_group.
    rewrite List.Forall_forall in Hpre. apply Hpre, Hg.
  - exact Hri.
Qed.

Lemma show_parquet_metadata_first_failure_witness :
  show_parquet_metadata ParquetViewExample.broken_file
  = Raise (OtherError (lit "ValueError") (lit "bad statistics")).
Proof.
  apply (show_parquet_metadata_first_failure ParquetViewExample.broken_file
           [] ParquetViewExample.broken_group [] [ParquetExample.payload_column]
           ParquetViewExample.broken_column [ParquetExample.id_column]).
  - reflexivity.
  - reflexivity.
  - constructor.
  - repeat constructor.
  - reflexivity.
  - reflexivity.
Defined.

Lemma render_row_groups_after_show_witness :
  exists md,
    show_parquet_metadata ParquetExample.sample_file = Ret md
    /\ map rv_number (render_row_groups md) = [1]
    /\ map (fun v => length (rv_rows v)) (render_row_groups md) = [2]
    /\ no_stat_cells (row_of (tolerant_column_info ParquetExample.payload_column)).
Proof.
  eexists. split; [reflexivity|].
  destruct (render_row_groups_after_show ParquetExample.sample_file _ eq_refl)
    as [Hview Hcells].
  rewrite Hview. split; [reflexivity|]. split; [reflexivity|].
  apply Hcells. intros s. discriminate.
Defined.

End ParquetViewFacts.

(** ** The listing pattern on plain prefixes *)
Module PlainPatternFacts.
Import Py PyFacts Resolver Regex.

Lemma plain_parts (c : char) :
  plain c = true ->
  (c =? 92)%N = false /\ (c =? 46)%N = false /\ (c =? 42)%N = false
  /\ is_meta c = false.
Proof.
  unfold plain. rewrite negb_true_iff, !orb_false_iff.
  intros [[H1 H2] H3]. repeat split; try assumption.
  destruct (c =? 42)%N eqn:E; [|reflexivity].
  apply N.eqb_eq in E. subst c. discriminate.
Qed.

Lemma starred_after_plain (p : str) :
  forallb plain p = true ->
  starred (p ++ lit ".*") = (false, p ++ lit ".*").
Proof.
  destruct p as [|d p]; [reflexivity|]. simpl. intros H.
  apply andb_true_iff in H as [H _].
  apply plain_parts in H as (_ & _ & E & _). rewrite E. reflexivity.
Qed.

Lemma parse_items_plain (p : str) (fuel : nat) :
  forallb plain p = true ->
  length p + 2 <= fuel ->
  parse_items fuel (p ++ lit ".*")
  = Some (map (fun c => (Lit c, false)) p ++ [(AnyChar, true)]).
Proof.
  revert fuel. induction p as [|c p IH]; intros fuel Hp Hf.
  - destruct fuel as [|[|fuel]]; simpl in Hf; try lia. reflexivity.
  - destruct fuel as [|fuel]; [simpl in Hf; lia|].
    simpl in Hp. apply andb_true_iff in Hp as [Hc Hp].
    apply plain_parts in Hc as (E1 & E2 & _ & E4).
    change ((c :: p) ++ lit ".*") with (c :: (p ++ lit ".*")).
    cbn [parse_items]. rewrite E1, E2, E4, (starred_after_plain p Hp), IH.
    + reflexivity.
    + exact Hp.
    + simpl in Hf. lia.
Qed.

(** X13.  The pattern is built from the raw prefix.  When no character of
    the prefix is active in a regular expression, the pattern lists exactly
    the keys that begin with the prefix, as the escaped form would. *)
Theorem ls_pattern_plain_prefix (relative_prefix key : str) :
  forallb plain relative_prefix = true ->
  accepts (ls_pattern relative_prefix) key = Some (startswith key relative_prefix)
  /\ accepts (ls_pattern relative_prefix) key
     = accepts (escaped_pattern relative_prefix) key.
Proof.
  intros Hp.
  assert (H : accepts (ls_pattern relative_prefix) key
              = Some (startswith key relative_prefix)).
  { destruct relative_prefix as [|c p].
    - rewrite PatternFacts.ls_pattern_empty_accepts_all. reflexivity.
    - unfold accepts. rewrite PatternFacts.ls_pattern_nonempty.
      change (lit "^" ++ (c :: p) ++ lit ".*")
        with (94%N :: ((c :: p) ++ lit ".*")).
      cbn [parse]. rewrite N.eqb_refl, (parse_items_plain (c :: p) _ Hp).
      + cbn [option_map]. rewrite PatternFacts.match_literal_prefix. reflexivity.
      + rewrite length_app. simpl. lia. }
  split; [exact H|].
  rewrite H, PatternFacts.escaped_pattern_accepts. reflexivity.
Qed.

Lemma ls_pattern_plain_prefix_witness :
  accepts (ls_pattern (lit "db/t1")) (lit "db/t1/part-0.parquet") = Some true
  /\ accepts (ls_pattern (lit "db/t1")) (lit "db/tX1/part-0.parquet") = Some false.
Proof.
  split.
  - rewrite (proj1 (ls_pattern_plain_prefix (lit "db/t1")
                      (lit "db/t1/part-0.parquet") eq_refl)).
    reflexivity.
  - rewrite (proj1 (ls_pattern_plain_prefix (lit "db/t1")
                      (lit "db/tX1/part-0.parquet") eq_refl)).
    reflexivity.
Defined.

End PlainPatternFacts.

(** ** The sanitized text, continued *)
Module CleanseMoreFacts.
Import Exc Py Cortex CleanseFacts.

Lemma replace_char_absent (old : char) (new s : str) :
  char_in old s = false -> replace_char old new s = s.
Proof.
  induction s as [|c r IH]; [reflexivity|].
  unfold char_in. simpl. rewrite orb_false_iff. intros [Hc Hr].
  rewrite N.eqb_sym in Hc. unfold replace_char in *. simpl.
  rewrite Hc. simpl. f_equal. apply IH. exact Hr.
Qed.

Lemma sub_runs_absent (cls : char -> bool) (two : bool) (s : str) :
  forallb (fun c => negb (cls c)) s = true -> sub_runs cls two false s = s.
Proof.
  induction s as [|c r IH]; [reflexivity|]. simpl.
  rewrite andb_true_iff, negb_true_iff. intros [Hc Hr].
  rewrite Hc. f_equal. apply IH, Hr.
Qed.

Lemma sub_two_or_more_isolated (s : str) :
  no_space_pair s = true -> sub_runs isspace true false s = s.
Proof.
  induction s as [|c r IH]; [reflexivity|].
  cbn [no_space_pair]. rewrite andb_true_iff, negb_true_iff. intros [Hc Hr].
  rewrite sub_runs_cons. destruct (isspace c) eqn:E.
  - rewrite andb_true_l in Hc. rewrite Hc. simpl. f_equal. apply IH, Hr.
  - f_equal. apply IH, Hr.
Qed.

Lemma no_control_no_nl (s : str) :
  no_control s = true -> forallb (fun c => negb (is_nl_cr_tab c)) s = true.
Proof.
  unfold no_control. rewrite !forallb_forall. intros H c Hin.
  specialize (H c Hin). destruct (is_nl_cr_tab c) eqn:E; [|reflexivity].
  apply nl_cr_tab_is_control in E. rewrite E in H. discriminate.
Qed.

Lemma filter_visible_quote_length (s : str) :
  char_in 39 s = true ->
  length (List.filter visible s)
  < length (replace_char 39 [39; 39]%N (List.filter visible s)).
Proof.
  assert (Hle : forall t, length t <= length (replace_char 39 [39; 39]%N t)).
  { induction t as [|c r IH]; [simpl; lia|].
    unfold replace_char in *. simpl. rewrite length_app.
    destruct (c =? 39)%N; simpl; lia. }
  induction s as [|c r IH]; [discriminate|].
  unfold char_in in *. cbn [existsb List.filter]. intros H.
  destruct (39 =? c)%N eqn:E.
  - apply N.eqb_eq in E. subst c.
    change (visible 39) with true. cbv iota.
    pose proof (Hle (List.filter visible r)) as Hr.
    unfold replace_char in *. cbn [flat_map]. rewrite N.eqb_refl, length_app.
    simpl length. lia.
  - rewrite orb_false_l in H. specialize (IH H).
    destruct (visible c); [|exact IH].
    unfold replace_char in *. cbn [flat_map]. rewrite length_app.
    destruct (c =? 39)%N; simpl length; lia.
Qed.

(** X14.  The texts the four substitutions leave as they are, are exactly
    those with no single quote, no control character and no two
    neighbouring whitespace characters. *)
Theorem escape_text_fixes_exactly_clean_text (text : str) :
  escape_text text = text
  <-> char_in 39 text = false /\ no_control text = true
      /\ no_space_pair text = true.
Proof.
  split.
  - intros H. split; [|split].
    + destruct (char_in 39 text) eqn:E; [|reflexivity].
      pose proof (filter_visible_quote_length text E) as Hlt.
      rewrite <- escape_text_visible, H in Hlt. lia.
    + rewrite <- H. apply escape_text_clean.
    + rewrite <- H. apply escape_text_spaces.
  - intros (Hq & Hc & Hs). unfold escape_text, re_sub_plus, re_sub_two_or_more.
    rewrite (replace_char_absent _ _ _ Hq).
    rewrite (sub_runs_absent _ _ _ (no_control_no_nl _ Hc)).
    rewrite (sub_runs_absent is_control false text Hc).
    apply sub_two_or_more_isolated. exact Hs.
Qed.

Lemma quotes_paired_cut (s : str) :
  forall (odd : bool) (k : nat),
  quotes_paired_from odd s = true ->
  quotes_paired_from odd (firstn k s) = true
  \/ quotes_paired_from odd (firstn k s ++ [39%N]) = true.
Proof.
  induction s as [|c r IH]; intros odd k H.
  - left. rewrite firstn_nil. exact H.
  - destruct k as [|k].
    + simpl firstn. destruct odd; [right | left]; reflexivity.
    + simpl firstn. simpl in H. simpl.
      destruct (c =? 39)%N.
      * apply IH, H.
      * apply andb_true_iff in H as [Ho Hr]. rewrite Ho. simpl.
        apply IH, Hr.
Qed.

Lemma slice_to_firstn (s : str) (n : Z) : exists k, slice_to s n = firstn k s.
Proof. unfold slice_to. destruct (n <? 0)%Z; eexists; reflexivity. Qed.

Lemma slice_to_all (s : str) (n : Z) :
  (Z.of_nat (length s) <= n)%Z -> slice_to s n = s.
Proof.
  intros H. unfold slice_to.
  destruct (n <? 0)%Z eqn:E; [apply Z.ltb_lt in E; lia|].
  apply firstn_all2. lia.
Qed.

Section WithSerializer.
Variable record : Type.
Variable json_dumps : record -> outcome str.
Variable py_str : record -> outcome str.

(** X15.  The cut is made after the quotes were doubled.  What
    [cleanse_for_cortex] returns either has every run of single quotes of
    even length, or ends with a quote that lost its twin to the cut: one
    more quote pairs it, which is what the closing quote of the SQL literal
    then does.  A text whose escaped form fits in [max_len] is returned
    whole, with its quotes paired. *)
Theorem cleanse_cut_splits_at_most_one_pair
    (r : record) (max_len : Z) (text : str) :
  serialize record json_dumps py_str r = Ret text ->
  exists out,
    cleanse_for_cortex record json_dumps py_str r max_len = Ret out
    /\ (quotes_paired out = true \/ quotes_paired (out ++ [39%N]) = true)
    /\ ((Z.of_nat (length (escape_text text)) <= max_len)%Z ->
        out = escape_text text /\ quotes_paired out = true).
Proof.
  intros H. unfold cleanse_for_cortex. rewrite H. simpl.
  eexists. split; [reflexivity|]. split.
  - destruct (slice_to_firstn (escape_text text) max_len) as [k ->].
    apply quotes_paired_cut, escape_text_quotes.
  - intros Hlen. rewrite (slice_to_all _ _ Hlen).
    split; [reflexivity | apply escape_text_quotes].
Qed.

End WithSerializer.

Lemma cleanse_cut_splits_at_most_one_pair_witness :
  exists out,
    cleanse_for_cortex str CortexExample.text_dumps CortexExample.text_str
      CortexExample.quoted_record 4%Z = Ret out
    /\ (quotes_paired out = true \/ quotes_paired (out ++ [39%N]) = true)
    /\ ((Z.of_nat
           (length (escape_text (JsonWriter.json_dumps_str CortexExample.quoted_record)))
         <= 4)%Z ->
        out = escape_text (JsonWriter.json_dumps_str CortexExample.quoted_record)
        /\ quotes_paired out = true).
Proof.
  apply (cleanse_cut_splits_at_most_one_pair str CortexExample.text_dumps
           CortexExample.text_str CortexExample.quoted_record 4%Z
           (JsonWriter.json_dumps_str CortexExample.quoted_record)).
  reflexivity.
Defined.

(** The slice is taken after the escaping, so it can end between the two
    quotes of a pair. *)
Example cleanse_cut_inside_pair :
  cleanse_for_cortex str CortexExample.text_dumps CortexExample.text_str
    CortexExample.quoted_record 4
  = Ret ([34%N] ++ lit "it'").
Proof. reflexivity. Qed.

End CleanseMoreFacts.

(** ** Reading a finite Avro file *)
Module AvroMoreFacts.
Import Exc Avro.

Lemma read_loop_from_list {record : Type} (fuel : nat) :
  forall (i : N) (l records : list record),
  (i <= 9999999)%N ->
  (9999999 < i + N.of_nat fuel)%N \/ length l < fuel ->
  read_loop from_list fuel i l records
  = Some (Ret (records ++ firstn (N.to_nat (10000000 - i)) l)).
Proof.
  induction fuel as [|fuel IH]; intros i l records Hi Hfuel.
  - destruct Hfuel as [H|H]; [|inversion H]. rewrite N.add_0_r in H.
    apply N.lt_nge in H. contradiction.
  - cbn [read_loop]. destruct l as [|r rest].
    + cbn [from_list]. rewrite firstn_nil, app_nil_r. reflexivity.
    + cbn [from_list].
      replace (N.to_nat (10000000 - i)) with (S (N.to_nat (9999999 - i))) by lia.
      cbn [firstn]. destruct (9999999 <=? i)%N eqn:Hcap.
      * apply N.leb_le in Hcap.
        replace (9999999 - i)%N with 0%N by lia. reflexivity.
      * apply N.leb_gt in Hcap. rewrite IH.
        -- replace (10000000 - (i + 1))%N with (9999999 - i)%N by lia.
           rewrite <- app_assoc. reflexivity.
        -- lia.
        -- destruct Hfuel as [H|H]; [left; lia | right; simpl in H; lia].
Qed.

(** X16.  On a file that holds finitely many records the loop returns its
    first 10,000,000 records in order, so a file with no more than that is
    read whole.  Fuel for one step more than the file has records, or for
    the cap, is enough. *)
Theorem read_records_finite_file {record : Type} (l : list record) (fuel : nat) :
  (10000000 <= N.of_nat fuel)%N \/ length l < fuel ->
  read_records from_list fuel l = Some (Ret (firstn (N.to_nat 10000000) l))
  /\ ((N.of_nat (length l) <= 10000000)%N ->
      read_records from_list fuel l = Some (Ret l)).
Proof.
  intros Hfuel.
  assert (H : read_records from_list fuel l
              = Some (Ret (firstn (N.to_nat 10000000) l))).
  { unfold read_records. rewrite read_loop_from_list.
    - rewrite N.sub_0_r. reflexivity.
    - lia.
    - destruct Hfuel as [Hf|Hf]; [left; lia | right; exact Hf]. }
  split; [exact H|].
  intros Hlen. rewrite H, firstn_all2; [reflexivity | lia].
Qed.

Lemma read_records_finite_file_witness :
  read_records from_list 4 [lit "r1"; lit "r2"; lit "r3"]
  = Some (Ret [lit "r1"; lit "r2"; lit "r3"]).
Proof.
  apply (read_records_finite_file [lit "r1"; lit "r2"; lit "r3"] 4).
  - right. simpl. lia.
  - simpl. lia.
Defined.

End AvroMoreFacts.

(** ** The answer of the summarization call *)
Module CortexMoreFacts.
Import Exc Cortex.

(** The cells of a row taken with their column names. *)
Lemma labelled_filter (name : str) (cols : list str) (row : list (option str)) :
  labelled name cols row
  = map snd (List.filter (fun cv => Py.str_eqb (fst cv) name) (combine cols row)).
Proof.
  revert row. induction cols as [|c cols IH]; intros row; [reflexivity|].
  destruct row as [|v row]; [reflexivity|].
  cbn [labelled combine List.filter fst]. destruct (Py.str_eqb c name).
  - cbn [map snd]. f_equal. apply IH.
  - apply IH.
Qed.

Lemma labelled_none (name : str) (cols : list str) (row : list (option str)) :
  length row = length cols ->
  labelled name cols row = [] ->
  existsb (Py.str_eqb name) cols = false.
Proof.
  revert row. induction cols as [|c cols IH]; intros row Hlen H; [reflexivity|].
  destruct row as [|v row]; [discriminate|].
  cbn [labelled] in H. cbn [existsb].
  destruct (Py.str_eqb c name) eqn:E; [discriminate|].
  assert (E' : Py.str_eqb name c = false).
  { apply PyFacts.str_eqb_neq. apply PyFacts.str_eqb_neq in E. congruence. }
  rewrite E'. simpl. apply (IH row); [simpl in Hlen; lia | exact H].
Qed.

Lemma labelled_some (name : str) (cols : list str) (row : list (option str)) :
  labelled name cols row <> [] ->
  existsb (Py.str_eqb name) cols = true.
Proof.
  revert row. induction cols as [|c cols IH]; intros row H;
    [exfalso; apply H; reflexivity|].
  destruct row as [|v row]; [exfalso; apply H; reflexivity|].
  cbn [labelled] in H. cbn [existsb].
  destruct (Py.str_eqb c name) eqn:E.
  - apply PyFacts.str_eqb_eq in E. subst c. rewrite PyFacts.str_eqb_refl.
    reflexivity.
  - rewrite (IH row H). apply orb_true_r.
Qed.

Section WithSession.
Variable record : Type.
Variable json_dumps : record -> outcome str.
Variable py_str : record -> outcome str.
Variable session_sql : str -> outcome dataframe.

Local Abbreviation call := (safe_cortex_call record json_dumps py_str session_sql).
Local Abbreviation cleanse := (cleanse_for_cortex record json_dumps py_str).

(** X17.  When the record serializes and the query answers with at least
    one row, the call reads the first row and no other.  With exactly one
    column named [MODEL_OUTPUT] it returns the cell under it; with several
    it returns a [Series] of the cells under all of them, not a string; with
    none it returns the first cell.  A [NULL] cell is returned as it is, not
    as a skip text. *)
Theorem safe_cortex_call_reads_first_row
    (r : record) (text : str) (df : dataframe) (row : list (option str)) :
  cleanse r 3000%Z = Ret text ->
  session_sql (sql_ai text) = Ret df ->
  hd_error (rows df) = Some row ->
  length row = length (columns df) ->
  let cells :=
    map snd
      (List.filter (fun cv => Py.str_eqb (fst cv) (lit "MODEL_OUTPUT"))
         (combine (columns df) row)) in
  (forall v, cells = [v] -> call r = Ret (Cell v))
  /\ (forall v w more, cells = v :: w :: more -> call r = Ret (Series cells))
  /\ (forall v, cells = [] -> hd_error row = Some v -> call r = Ret (Cell v)).
Proof.
  intros Hc Hs Hrow Hlen cells.
  assert (Hcells : cells = labelled (lit "MODEL_OUTPUT") (columns df) row)
    by (symmetry; apply labelled_filter).
  assert (Hreq : call r
                 = try_except
                     (if existsb (Py.str_eqb (lit "MODEL_OUTPUT")) (columns df)
                      then iloc_label df (lit "MODEL_OUTPUT")
                      else iloc_pos df)
                     (fun e => Ret (Cell (Some (skipped e))))).
  { unfold safe_cortex_call, cortex_request. rewrite Hc. simpl. rewrite Hs.
    reflexivity. }
  rewrite Hreq. clear Hreq.
  destruct (rows df) as [|row0 rest] eqn:Hrows; [discriminate|].
  injection Hrow as ->.
  split; [|split].
  - intros v Hv.
    rewrite (labelled_some (lit "MODEL_OUTPUT") (columns df) row)
      by (rewrite <- Hcells, Hv; discriminate).
    unfold iloc_label. rewrite Hrows, <- Hcells, Hv. reflexivity.
  - intros v w more Hv.
    rewrite (labelled_some (lit "MODEL_OUTPUT") (columns df) row)
      by (rewrite <- Hcells, Hv; discriminate).
    unfold iloc_label. rewrite Hrows, <- Hcells, Hv. reflexivity.
  - intros v Hnone Hv.
    rewrite (labelled_none (lit "MODEL_OUTPUT") (columns df) row Hlen)
      by (rewrite <- Hcells; exact Hnone).
    unfold iloc_pos. rewrite Hrows.
    destruct row as [|v0 more]; [discriminate|]. injection Hv as ->.
    reflexivity.
Qed.

End WithSession.

Lemma safe_cortex_call_reads_first_row_witness :
  safe_cortex_call str CortexExample.text_dumps CortexExample.text_str
    CortexExample.session_up CortexExample.quoted_record
  = Ret (Cell (Some (lit "- two rows")))
  /\ safe_cortex_call str CortexExample.text_dumps CortexExample.text_str
       CortexExample.session_twice CortexExample.quoted_record
     = Ret (Series [Some (lit "- one"); Some (lit "- two")]).
Proof.
  split.
  - apply (proj1 (safe_cortex_call_reads_first_row str CortexExample.text_dumps
                    CortexExample.text_str CortexExample.session_up
                    CortexExample.quoted_record _ _ _ eq_refl eq_refl eq_refl
                    eq_refl)
             (Some (lit "- two rows"))).
    reflexivity.
  - apply (proj1 (proj2 (safe_cortex_call_reads_first_row str
                           CortexExample.text_dumps CortexExample.text_str
                           CortexExample.session_twice
                           CortexExample.quoted_record _ _ _ eq_refl eq_refl
                           eq_refl eq_refl))
             (Some (lit "- one")) (Some (lit "- two")) []).
    reflexivity.
Defined.

End CortexMoreFacts.

(** ** The older resolver *)
Module LegacyResolverFacts.
Import Py PyFacts StripFacts Resolver LegacyPath.

Lemma splitn_go_piece (a : str) :
  forall (budget : nat) (cur r : str),
  no_slash a = true ->
  splitn_go (lit "/") (S budget) 0 cur (a ++ 47%N :: r)
  = (rev cur ++ a) :: splitn_go (lit "/") budget 0 [] r.
Proof.
  induction a as [|c a IH]; intros budget cur r Ha.
  - rewrite app_nil_r. reflexivity.
  - simpl in Ha. apply andb_true_iff in Ha as [Hc Ha].
    apply negb_true_iff in Hc.
    change ((c :: a) ++ 47%N :: r) with (c :: (a ++ 47%N :: r)).
    cbn [splitn_go]. change (lit "/") with [47%N].
    rewrite startswith_cons, N.eqb_sym, Hc. cbn [andb].
    change [47%N] with (lit "/"). rewrite IH by exact Ha.
    simpl rev. rewrite <- app_assoc. reflexivity.
Qed.

Lemma splitn_go_spent (sep s : str) : splitn_go sep 0 0 [] s = [s].
Proof. destruct s; reflexivity. Qed.

Lemma splitn_three_segments (a b c rest : str) :
  no_slash a = true -> no_slash b = true -> no_slash c = true ->
  splitn (lit "/") 3 (a ++ lit "/" ++ b ++ lit "/" ++ c ++ lit "/" ++ rest)
  = [a; b; c; rest].
Proof.
  intros Ha Hb Hc. unfold splitn. change (lit "/") with [47%N].
  cbn [app]. change [47%N] with (lit "/").
  rewrite (splitn_go_piece a 2 [] _ Ha), (splitn_go_piece b 1 [] _ Hb),
    (splitn_go_piece c 0 [] _ Hc), splitn_go_spent.
  reflexivity.
Qed.

(** X18.  The older script has no test that the stage contains the volume
    path.  When the path does not continue the stage URL, the prefix is
    whatever follows the third [/] of the path: for a path written scheme,
    [//], bucket, [/], rest, it is the rest, whichever stage was picked. *)
Theorem legacy_fallback_cuts_after_third_slash
    (a b c rest url : str) :
  no_slash a = true -> no_slash b = true -> no_slash c = true ->
  startswith (a ++ lit "/" ++ b ++ lit "/" ++ c ++ lit "/" ++ rest)
    (rstrip (lit "/") url ++ lit "/") = false ->
  Legacy.relative_from_stage
    (a ++ lit "/" ++ b ++ lit "/" ++ c ++ lit "/" ++ rest)
    (rstrip (lit "/") url)
  = rest.
Proof.
  intros Ha Hb Hc Hout. unfold Legacy.relative_from_stage.
  assert (Hend : endswith (rstrip (lit "/") url) (lit "/") = false).
  { apply rstrip_by_no_trailing. reflexivity. }
  rewrite Hend, Hout, (splitn_three_segments a b c rest Ha Hb Hc).
  reflexivity.
Qed.

Lemma legacy_fallback_cuts_after_third_slash_witness :
  Legacy.relative_from_stage (lit "s3://bucket/vol1/data")
    (rstrip (lit "/") (lit "s3://other/stage/"))
  = lit "vol1/data".
Proof.
  apply (legacy_fallback_cuts_after_third_slash
           (lit "s3:") [] (lit "bucket") (lit "vol1/data")
           (lit "s3://other/stage/"));
    reflexivity.
Defined.

End LegacyResolverFacts.

(** ** The key-value metadata *)
Module ParquetKvFacts.
Import Utf8 ParquetKv.

Lemma decode_ignore_ascii (s : bytes) : is_ascii s = true -> decode_ignore s = s.
Proof.
  induction s as [|b r IH]; [reflexivity|].
  unfold is_ascii. cbn [forallb]. rewrite andb_true_iff. intros [Hb Hr].
  cbn [decode_ignore]. rewrite Hb, (IH Hr). reflexivity.
Qed.

Lemma fold_kv_untouched (post : list (bytes * bytes)) (s : str) :
  forall m : gmap str str,
  Forall (fun item => decode_ignore (fst item) <> s) post ->
  fold_left kv_step post m !! s = m !! s.
Proof.
  induction post as [|[k v] post IH]; intros m H; [reflexivity|].
  inversion H as [|? ? Hk Hpost]; subst. cbn [fold_left].
  rewrite (IH _ Hpost). unfold kv_step. apply lookup_insert_ne. exact Hk.
Qed.

Lemma fold_kv_origin (items : list (bytes * bytes)) (s t : str) :
  forall m : gmap str str,
  fold_left kv_step items m !! s = Some t ->
  m !! s = Some t
  \/ exists k v, In (k, v) items /\ decode_ignore k = s /\ decode_ignore v = t.
Proof.
  induction items as [|[k v] items IH]; intros m H; [left; exact H|].
  cbn [fold_left] in H. destruct (IH _ H) as [Hm|(k' & v' & Hin & Hk & Hv)].
  - unfold kv_step in Hm.
    destruct (decide (decode_ignore k = s)) as [E|E].
    + subst s. rewrite lookup_insert_eq in Hm. injection Hm as <-.
      right. exists k, v. split; [left; reflexivity | split; reflexivity].
    + rewrite lookup_insert_ne in Hm by exact E. left. exact Hm.
  - right. exists k', v'. split; [right; exact Hin | split; assumption].
Qed.

Lemma fold_kv_size (items : list (bytes * bytes)) :
  forall m : gmap str str,
  NoDup (map (fun item => decode_ignore (fst item)) items) ->
  Forall (fun item => m !! decode_ignore (fst item) = None) items ->
  size (fold_left kv_step items m) = size m + length items.
Proof.
  induction items as [|[k v] items IH]; intros m Hnd Hm; [simpl; lia|].
  cbn [map fst] in Hnd. apply NoDup_cons in Hnd as [Hk Hnd]. rewrite list_elem_of_In in Hk.
  inversion Hm as [|? ? Hmk Hmr]; subst. cbn [fst] in Hmk.
  cbn [fold_left]. rewrite IH.
  - unfold kv_step. rewrite (map_size_insert_None _ _ _ Hmk). simpl. lia.
  - exact Hnd.
  - apply List.Forall_forall. intros [k' v'] Hin. cbn [fst].
    unfold kv_step. rewrite lookup_insert_ne.
    + rewrite List.Forall_forall in Hmr. apply (Hmr (k', v') Hin).
    + intros E. apply Hk. rewrite E.
      apply (in_map (fun item => decode_ignore (fst item)) _ (k', v')), Hin.
Qed.

Lemma kv_lookup_last (pre post : list (bytes * bytes)) (k v : bytes) :
  Forall (fun item => decode_ignore (fst item) <> decode_ignore k) post ->
  kv_of (Some (pre ++ (k, v) :: post)) !! decode_ignore k
  = Some (decode_ignore v).
Proof.
  intros Hpost. unfold kv_of. rewrite fold_left_app. cbn [fold_left].
  rewrite (fold_kv_untouched post _ _ Hpost). unfold kv_step.
  apply lookup_insert_eq.
Qed.

(** X19.  The decoded dictionary holds, under each decoded key, the decoded
    value of the last raw pair whose key decodes to it, and nothing else.
    Raw keys that differ only in bytes the decoder drops share one entry,
    and the earlier value is lost. *)
Theorem kv_last_pair_wins (items : list (bytes * bytes)) :
  (forall pre k v post,
     items = pre ++ (k, v) :: post ->
     Forall (fun item => decode_ignore (fst item) <> decode_ignore k) post ->
     kv_of (Some items) !! decode_ignore k = Some (decode_ignore v))
  /\ (forall s t,
        kv_of (Some items) !! s = Some t ->
        exists k v, In (k, v) items /\ decode_ignore k = s /\ decode_ignore v = t)
  /\ size (kv_of (Some items)) <= length items.
Proof.
  split; [|split].
  - intros pre k v post -> Hpost. apply kv_lookup_last, Hpost.
  - intros s t H. unfold kv_of in H.
    destruct (fold_kv_origin items s t _ H) as [Hm|Hex]; [|exact Hex].
    rewrite lookup_empty in Hm. discriminate.
  - unfold kv_of.
    assert (Hle : forall (l : list (bytes * bytes)) (m : gmap str str),
               size (fold_left kv_step l m) <= size m + length l).
    { induction l as [|[k v] l IH]; intros m; [simpl; lia|].
      cbn [fold_left]. specialize (IH (kv_step m (k, v))).
      unfold kv_step in *.
      destruct (m !! decode_ignore k) eqn:E.
      - rewrite (map_size_insert_Some _ _ _ (mk_is_Some _ _ E)) in IH. simpl. lia.
      - rewrite (map_size_insert_None _ _ _ E) in IH. simpl. lia. }
    specialize (Hle items empty). rewrite map_size_empty in Hle. exact Hle.
Qed.

Lemma kv_last_pair_wins_witness :
  kv_of (Some ParquetKvExample.clashing_items) !! lit "a" = Some (lit "second")
  /\ size (kv_of (Some ParquetKvExample.clashing_items)) = 1.
Proof.
  split.
  - apply (proj1 (kv_last_pair_wins ParquetKvExample.clashing_items)
             [([97; 255]%N, lit "first")] (lit "a") (lit "second") []).
    + reflexivity.
    + constructor.
  - reflexivity.
Defined.

(** X20.  When every raw key is ASCII, no two keys collide: each pair of
    the file is in the dictionary under its own key, and the dictionary has
    as many entries as the file has pairs. *)
Theorem kv_keeps_ascii_keys (items : list (bytes * bytes)) :
  NoDup (map fst items) ->
  Forall (fun item => is_ascii (fst item) = true) items ->
  size (kv_of (Some items)) = length items
  /\ forall k v, In (k, v) items -> kv_of (Some items) !! k = Some (decode_ignore v).
Proof.
  intros Hnd Hascii.
  assert (Hkeys : map (fun item => decode_ignore (fst item)) items = map fst items).
  { apply map_ext_in. intros item Hin. rewrite List.Forall_forall in Hascii.
    apply decode_ignore_ascii, Hascii, Hin. }
  split.
  - unfold kv_of. rewrite fold_kv_size.
    + rewrite map_size_empty. reflexivity.
    + rewrite Hkeys. exact Hnd.
    + apply List.Forall_forall. intros item _. apply lookup_empty.
  - intros k v Hin.
    destruct (in_split _ _ Hin) as (pre & post & Hitems).
    assert (Hk : decode_ignore k = k).
    { rewrite List.Forall_forall in Hascii. apply (decode_ignore_ascii k), (Hascii (k, v) Hin). }
    rewrite <- Hk at 1. rewrite Hitems.
    apply kv_lookup_last.
    apply List.Forall_forall. intros [k' v'] Hin' E. cbn [fst] in E.
    rewrite Hk in E.
    assert (Hk' : decode_ignore k' = k').
    { rewrite List.Forall_forall in Hascii. apply (decode_ignore_ascii k').
      apply (Hascii (k', v')). rewrite Hitems. apply in_or_app. right. right.
      exact Hin'. }
    rewrite Hk' in E. subst k'.
    rewrite Hitems, map_app in Hnd. cbn [map fst] in Hnd.
    apply NoDup_ListNoDup, NoDup_remove_2 in Hnd. apply Hnd. apply in_or_app. right.
    apply (in_map fst _ (k, v')), Hin'.
Qed.

Lemma kv_keeps_ascii_keys_witness :
  size (kv_of (Some ParquetKvExample.usual_items)) = 2
  /\ kv_of (Some ParquetKvExample.usual_items) !! lit "ARROW:schema"
     = Some (lit "x").
Proof.
  assert (Hnd : NoDup (map fst ParquetKvExample.usual_items)).
  { apply NoDup_ListNoDup. constructor.
    - simpl. intros [H|[]]. discriminate.
    - constructor; [simpl; intros [] | constructor]. }
  assert (Hascii : Forall (fun item => is_ascii (fst item) = true)
                     ParquetKvExample.usual_items).
  { repeat constructor. }
  destruct (kv_keeps_ascii_keys ParquetKvExample.usual_items Hnd Hascii)
    as [Hsize Hget].
  split; [exact Hsize|].
  apply (Hget (lit "ARROW:schema") [255; 255; 120]%N).
  right. left. reflexivity.
Defined.

End ParquetKvFacts.

(** ** The sanitized text of a record *)
Module CleanseRecordFacts.
Import Exc Py PyFacts Cortex JsonWriter CleanseFacts CleanseMoreFacts.













Section WithSerializer.
Variable record : Type.
Variable json_dumps : record -> outcome str.
Variable py_str : record -> outcome str.


End WithSerializer.



(** On the [str] path the raw newline is there to be replaced. *)
Example cleanse_quote_and_newline :
  cleanse_for_cortex str CortexExample.rejecting_dumps CortexExample.text_str
    CortexExample.quoted_record 2000
  = Ret (lit "it''s ok").
Proof. reflexivity. Qed.

End CleanseRecordFacts.
